(** * WAMS gesture engine: Pinch, the Interactor's Rotate refinement, shared utilities

    A shallow embedding of
    - [src/shared/util.js]            ([getInitialValues], [NOP], [removeById],
                                       [safeRemoveById]),
    - [src/gestures/gestures/Pinch.js] (the Pinch recognizer),
    - the client [Interactor]          ([rotate], [pinch], [rotater] and its
                                       [refineRotateMove]),
    followed by the properties the specification states about them.

    JavaScript numbers are IEEE 754 doubles: they are embedded as Rocq's
    primitive [float], whose operations are the binary64 ones.  The recognizer
    is written once, over a [Number] interface, so that the same text can also
    be read in exact real arithmetic where the specification argues
    algebraically. *)

From Stdlib Require Import ZArith List Floats Reals Lra Lia.
From stdpp Require Import base list strings gmap.

Open Scope Z_scope.

(** ** JavaScript values shared by all modules *)

(** How a call completes: with a value, or by throwing. *)
Inductive Completion (A : Type) : Type :=
| Normal (a : A)
| Throw (msg : string).
Arguments Normal {A} a.
Arguments Throw {A} msg.

(** The arithmetic the recognizers use.  [of_length] is the conversion of an
    array length to a number. *)
Class Number (num : Type) : Type := {
  zero : num;
  one : num;
  add : num → num → num;
  sub : num → num → num;
  mul : num → num → num;
  div : num → num → num;
  sqrt : num → num;
  of_length : nat → num
}.

(** JavaScript's numbers: binary64.  An array length is below 2^32, far
    inside the range in which [of_uint63] is exact. *)
#[export] Instance float_Number : Number float := {|
  zero := 0%float;
  one := 1%float;
  add := PrimFloat.add;
  sub := PrimFloat.sub;
  mul := PrimFloat.mul;
  div := PrimFloat.div;
  sqrt := PrimFloat.sqrt;
  of_length n := PrimFloat.of_uint63 (Uint63.of_Z (Z.of_nat n))
|}.

(** Exact real arithmetic, the reading in which the specification's algebraic
    statements are meant. *)
#[export] Instance R_Number : Number R := {|
  zero := 0%R;
  one := 1%R;
  add := Rplus;
  sub := Rminus;
  mul := Rmult;
  div := Rdiv;
  sqrt := R_sqrt.sqrt;
  of_length := INR
|}.

(** [Math.PI], the double nearest to pi. *)
Definition PI : float := 0x1.921fb54442d18p+1%float.

(** The [||] of [options.minInputs || DEFAULT_MIN_INPUTS] on an optional
    integer: [undefined] and [0] are falsy, every other integer is truthy. *)
Definition js_or (v : option Z) (d : Z) : Z :=
  match v with
  | None => d
  | Some 0 => d
  | Some n => n
  end.

(** ** Ordinary objects and their property descriptors

    [util.js] reads and defines properties through
    [Object.getOwnPropertyDescriptor] and [Object.defineProperty].  These are
    the language's: they are embedded after ECMAScript's
    ValidateAndApplyPropertyDescriptor, for ordinary objects. *)

Module JSObject.

Section Objects.
(** The values of the language ([SameValue] is equality on them) and its
    functions, the getters and setters of accessor properties. *)
Context {V F : Type} `{EqDecision V}.
(** The value [undefined]. *)
Variable undefined : V.

(** An own property: a data property or an accessor property. *)
Inductive Property : Type :=
| Data (value : V) (writable enumerable configurable : bool)
| Accessor (get set : option F) (enumerable configurable : bool).

Definition configurable (p : Property) : bool :=
  match p with
  | Data _ _ _ c => c
  | Accessor _ _ _ c => c
  end.

Definition enumerable (p : Property) : bool :=
  match p with
  | Data _ _ e _ => e
  | Accessor _ _ e _ => e
  end.

(** An object: its own properties and whether it is extensible. *)
Record Obj : Type := {
  properties : gmap string Property;
  extensible : bool
}.

(** A descriptor literal with the fields [util.js] writes; a field left
    out is [None]. *)
Record Descriptor : Type := {
  desc_value : option V;
  desc_writable : option bool;
  desc_enumerable : option bool;
  desc_configurable : option bool
}.

(** [Object.getOwnPropertyDescriptor(obj, prop)]; [None] is [undefined]. *)
Definition getOwnPropertyDescriptor (obj : Obj) (prop : string) : option Property :=
  properties obj !! prop.

(** Sets on a data property the attributes the descriptor has. *)
Definition applyFields (value : V) (writable enumerable configurable : bool)
    (desc : Descriptor) : Property :=
  Data (default value (desc_value desc))
       (default writable (desc_writable desc))
       (default enumerable (desc_enumerable desc))
       (default configurable (desc_configurable desc)).

(** Has the descriptor neither [value] nor [writable]? *)
Definition isGeneric (desc : Descriptor) : bool :=
  match desc_value desc, desc_writable desc with
  | None, None => true
  | _, _ => false
  end.

(** May a property that is not configurable accept the descriptor's
    [configurable] and [enumerable]? *)
Definition keepsFrozenAttributes (current : Property) (desc : Descriptor) : bool :=
  negb (bool_decide (desc_configurable desc = Some true))
  && bool_decide (desc_enumerable desc = None
                  ∨ desc_enumerable desc = Some (enumerable current)).

(** ValidateAndApplyPropertyDescriptor: the property afterwards, or [None]
    when the definition is rejected. *)
Definition validateAndApply (current : option Property) (ext : bool)
    (desc : Descriptor) : option Property :=
  match current with
  | None =>
      if ext then Some (applyFields undefined false false false desc) else None
  | Some current =>
      if negb (configurable current) && negb (keepsFrozenAttributes current desc)
      then None
      else
        match current with
        | Data v w e c =>
            if negb c && negb w
               && (bool_decide (desc_writable desc = Some true)
                   || negb (bool_decide (desc_value desc = None
                                         ∨ desc_value desc = Some v)))
            then None
            else Some (applyFields v w e c desc)
        | Accessor g s e c =>
            if isGeneric desc
            then Some (Accessor g s (default e (desc_enumerable desc))
                                    (default c (desc_configurable desc)))
            else if negb c then None
            else Some (applyFields undefined false e c desc)
        end
  end.

(** [Object.defineProperty(obj, prop, desc)]: the object afterwards, or the
    [TypeError] of a rejected definition, which leaves the object as it
    was. *)
Definition defineProperty (obj : Obj) (prop : string) (desc : Descriptor)
    : Completion Obj :=
  match validateAndApply (properties obj !! prop) (extensible obj) desc with
  | Some p => Normal {| properties := <[prop := p]> (properties obj);
                        extensible := extensible obj |}
  | None => Throw ("TypeError: Cannot redefine property: " +:+ prop)
  end.
End Objects.
Arguments Property V F : clear implicits.
Arguments Obj V F : clear implicits.
Arguments Descriptor V : clear implicits.

End JSObject.

(** ** src/shared/util.js *)

Module Util.

(** [const NOP = () => {}]: a callback that ignores its arguments and leaves
    the world [St] behind it as it is. *)
Definition NOP {Args St : Type} : Args → St → St := λ _ st, st.

Section GetInitialValues.
Context {V : Type}.

(** [getInitialValues(defaults, data)]: a new object with the own keys of
    [defaults]; [rv[k] = data.hasOwnProperty(k) ? data[k] : defaults[k]]. *)
Definition getInitialValues (defaults data : gmap string V) : gmap string V :=
  map_imap (λ k d, Some (match data !! k with Some v => v | None => d end))
           defaults.
End GetInitialValues.

Section ById.
Context {T Id : Type} `{EqDecision Id}.
(** The [id] property of an item. *)
Variable id : T → Id.

(** [Array.prototype.findIndex]: the index of the first element passing
    [callback], scanning from index [k]; [-1] when there is none. *)
Fixpoint findIndexFrom (callback : T → bool) (k : Z) (array : list T) : Z :=
  match array with
  | [] => -1
  | o :: rest => if callback o then k else findIndexFrom callback (k + 1) rest
  end.

Definition findIndex (callback : T → bool) (array : list T) : Z :=
  findIndexFrom callback 0 array.

(** [array.splice(idx, 1)] for [idx >= 0]: drops the element at [idx],
    nothing when [idx] is past the end. *)
Definition splice1 (idx : Z) (array : list T) : list T :=
  delete (Z.to_nat idx) array.

(** [removeById(array, item)].  The array is mutated in place: the
    function returns its result together with the array afterwards. *)
Definition removeById (array : list T) (item : T) : bool * list T :=
  let idx := findIndex (λ o, bool_decide (id o = id item)) array in
  if 0 <=? idx then (true, splice1 idx array)
  else (false, array).

(** A constructor function, as [instanceof] and the error message of
    [safeRemoveById] see it. *)
Record ClassFn : Type := {
  toString : string;
  hasInstance : T → bool
}.

(** [safeRemoveById(array, item, class_fn)]. *)
Definition safeRemoveById (array : list T) (item : T) (class_fn : ClassFn)
  : Completion bool * list T :=
  if negb (hasInstance class_fn item)
  then (Throw ("Invalid " +:+ toString class_fn +:+ " received."), array)
  else let (r, array') := removeById array item in (Normal r, array').
End ById.

Section Properties.
Context {V F : Type} `{EqDecision V}.
Variable undefined : V.

(** [defineOwnImmutableEnumerableProperty(obj, prop, val)]; it returns
    nothing, the result is the object afterwards. *)
Definition defineOwnImmutableEnumerableProperty (obj : JSObject.Obj V F)
    (prop : string) (val : V) : Completion (JSObject.Obj V F) :=
  JSObject.defineProperty undefined obj prop
    {| JSObject.desc_value := Some val;
       JSObject.desc_configurable := Some false;
       JSObject.desc_enumerable := Some true;
       JSObject.desc_writable := Some false |}.

(** [makeOwnPropertyImmutable(obj, prop)]; it returns the object. *)
Definition makeOwnPropertyImmutable (obj : JSObject.Obj V F) (prop : string)
    : Completion (JSObject.Obj V F) :=
  let desc := JSObject.getOwnPropertyDescriptor obj prop in
  match desc with
  | Some current =>
      if JSObject.configurable current
      then JSObject.defineProperty undefined obj prop
             {| JSObject.desc_value := None;
                JSObject.desc_configurable := Some false;
                JSObject.desc_enumerable := None;
                JSObject.desc_writable := Some false |}
      else Normal obj
  | None => Normal obj
  end.

(** The matcher of the test suite,
    [descs && !(descs.configurable || descs.writable)]; the descriptor of an
    accessor property has no [writable]. *)
Definition toHaveImmutableProperty (received : JSObject.Obj V F) (argument : string)
    : bool :=
  match JSObject.getOwnPropertyDescriptor received argument with
  | Some (JSObject.Data _ w _ c) => negb (c || w)
  | Some (JSObject.Accessor _ _ _ c) => negb c
  | None => false
  end.
End Properties.

Section FindLast.
Context {T This : Type}.

(** What [findLast] returns: an element, the [undefined] that an index past
    the end reads, or [null]. *)
Inductive Found : Type :=
| Value (v : T)
| Undefined
| Null.

(** A callback, called as [callback.call(thisArg, array[i], i, array)];
    [array[i]] is [None] past the end. *)
Definition Callback : Type := This → option T → Z → list T → bool.

(** The [while] loop entered with [fromIndex = remaining - 1]: the value of
    [fromIndex] when it ends. *)
Fixpoint findLastLoop (array : list T) (callback : Callback) (thisArg : This)
    (remaining : nat) : Z :=
  match remaining with
  | O => -1
  | S i =>
      if callback thisArg (array !! i) (Z.of_nat i) array then Z.of_nat i
      else findLastLoop array callback thisArg i
  end.

(** [findLast(array, callback, fromIndex = array.length - 1, thisArg)]. *)
Definition findLast (array : list T) (callback : Callback)
    (fromIndex : option Z) (thisArg : This) : Found :=
  let fromIndex := default (Z.of_nat (length array) - 1) fromIndex in
  let fromIndex :=
    if fromIndex <? 0 then fromIndex
    else findLastLoop array callback thisArg (Z.to_nat (fromIndex + 1)) in
  if 0 <=? fromIndex
  then match array !! Z.to_nat fromIndex with
       | Some v => Value v
       | None => Undefined
       end
  else Null.
End FindLast.
Arguments Found T : clear implicits.

Section FindLastValue.
(** Arrays of values [V] of the language, [undefined] and [null] among
    them: an element of the array may itself be one of the two. *)
Context {V This : Type}.
Variables (undefined null : V).

(** What the caller of [findLast] receives: [array[fromIndex]] as it is,
    which past the end of the array is [undefined], or [null]. *)
Definition returned (found : Found V) : V :=
  match found with
  | Value v => v
  | Undefined => undefined
  | Null => null
  end.

Definition findLastValue (array : list V) (callback : @Callback V This)
    (fromIndex : option Z) (thisArg : This) : V :=
  returned (findLast array callback fromIndex thisArg).
End FindLastValue.

End Util.

(** ** Geometry and input state of the gesture library

    [Pinch.js] works on the library's [Point2D], [Input] and [State], whose
    files ([core/]) are missing from the sources; what [Pinch.js] uses of
    them is modelled from the specification. *)

Module Gestures.

Section Core.
Context {num : Type} `{Number num}.

Record Point2D : Type := { x : num; y : num }.

(** Modelled from the spec: [Point2D.distanceTo], which is missing from the
    sources: "Euclidean distance". *)
Definition distanceTo (p q : Point2D) : num :=
  let dx := sub (x q) (x p) in
  let dy := sub (y q) (y p) in
  sqrt (add (mul dx dx) (mul dy dy)).

(** Modelled from the spec: [Point2D.averageDistanceTo], which is missing
    from the sources: "mean of distanceTo over a non-empty sequence,
    undefined (caller must guard) for an empty sequence".  On an empty
    sequence this is [0 / 0]. *)
Definition averageDistanceTo (p : Point2D) (points : list Point2D) : num :=
  div (fold_left (λ total q, add total (distanceTo p q)) points zero)
      (of_length (length points)).

Inductive Phase : Type := PhaseStart | PhaseMove | PhaseEnd | PhaseCancel.

(** Modelled from the spec: the [Input] of one contact, which is missing
    from the sources: identifier, initial / current / previous position
    and phase. *)
Record Input : Type := {
  identifier : Z;
  initial : Point2D;
  current : Point2D;
  previous : Point2D;
  phase : Phase
}.

(** Modelled from the spec: the [State] handed to every hook, which is
    missing from the sources.  These are the three properties [Pinch.js]
    reads; they are stored properties of the object, so nothing here
    forces [centroid] to be the mean of [activePoints]. *)
Record State : Type := {
  active : list Input;
  activePoints : list Point2D;
  centroid : Point2D
}.

(** Modelled from the spec: the derived fields of a [State], whose class is
    missing from the sources: "derived activePoints (their current
    positions); derived centroid (arithmetic mean of activePoints)". *)
Definition midpointOf (points : list Point2D) : Point2D :=
  let n := of_length (length points) in
  {| x := div (fold_left (λ total q, add total (x q)) points zero) n;
     y := div (fold_left (λ total q, add total (y q)) points zero) n |}.

Definition stateOf (inputs : list Input) : State :=
  {| active := inputs;
     activePoints := map current inputs;
     centroid := midpointOf (map current inputs) |}.
End Core.
Arguments Point2D num : clear implicits.
Arguments Input num : clear implicits.
Arguments State num : clear implicits.

End Gestures.

(** ** src/gestures/gestures/Pinch.js *)

Module Pinch.
Import Gestures.

Definition DEFAULT_MIN_INPUTS : Z := 2.

Section Pinch.
Context {num : Type} `{Number num}.

(** A Pinch object.  [minInputs] and [previous] are the two properties the
    class declares.  Its base class [Gesture] ([core/Gesture.js]) is missing
    from the sources: of it only [type], the name given to [super('pinch')],
    is kept. *)
Record Pinch : Type := {
  type : string;
  minInputs : Z;
  previous : num
}.

(** [PinchData], the record a recognized move returns. *)
Record PinchData : Type := {
  distance : num;
  midpoint : Point2D num;
  change : num
}.

(** The [options] of the constructor; [None] is a [minInputs] left out. *)
Record Options : Type := { options_minInputs : option Z }.

(** [constructor(options = {})].  There is no [throw] in it. *)
Definition constructor (options : Options) : Completion Pinch :=
  Normal {| type := "pinch";
            minInputs := js_or (options_minInputs options) DEFAULT_MIN_INPUTS;
            previous := zero |}.

(** The two objects a hook can reach: the gesture it is a method of and
    the state it is handed. *)
Record Heap : Type := { this : Pinch; state : State num }.

(** A hook is a computation over that heap. *)
Definition Hook (A : Type) : Type := Heap → A * Heap.

Definition ret {A : Type} (a : A) : Hook A := λ h, (a, h).

Definition bind {A B : Type} (m : Hook A) (k : A → Hook B) : Hook B :=
  λ h, let (a, h') := m h in k a h'.

(** Reading a property of the state or of the gesture. *)
Definition read_state {A : Type} (field : State num → A) : Hook A :=
  λ h, (field (state h), h).

Definition read_this {A : Type} (field : Pinch → A) : Hook A :=
  λ h, (field (this h), h).

(** [this.previous = d], the only assignment in the class's hooks: the
    gesture with that property replaced, and the write on the heap. *)
Definition setPrevious (g : Pinch) (d : num) : Pinch :=
  {| type := type g; minInputs := minInputs g; previous := d |}.

Definition write_previous (d : num) : Hook unit :=
  λ h, (tt, {| this := setPrevious (this h) d; state := state h |}).
End Pinch.
Arguments Pinch num : clear implicits.
Arguments PinchData num : clear implicits.
Arguments Heap num : clear implicits.
Arguments Hook num A : clear implicits.

Declare Scope hook_scope.
Delimit Scope hook_scope with hook.
Notation "'let*' x := m 'in' k" := (bind m (λ x, k))
  (at level 10, x name, m at level 100, k at level 200) : hook_scope.
Notation "m ;; k" := (bind m (λ _, k))
  (at level 100, k at level 200, right associativity) : hook_scope.

Section Hooks.
Context {num : Type} `{Number num}.
Open Scope hook_scope.

(** [refresh(state)]. *)
Definition refresh : Hook num unit :=
  let* active_length := read_state (λ s, Z.of_nat (length (active s))) in
  let* min_inputs := read_this minInputs in
  if min_inputs <=? active_length then
    let* centroid := read_state centroid in
    let* points := read_state activePoints in
    let distance := averageDistanceTo centroid points in
    write_previous distance
  else ret tt.

(** [start(state)]. *)
Definition start : Hook num unit := refresh.

(** [move(state)]: [None] is the [null] of "not recognized". *)
Definition move : Hook num (option (PinchData num)) :=
  let* active_length := read_state (λ s, Z.of_nat (length (active s))) in
  let* min_inputs := read_this minInputs in
  if active_length <? min_inputs then ret None
  else
    let* midpoint := read_state centroid in
    let* points := read_state activePoints in
    let distance := averageDistanceTo midpoint points in
    let* previous := read_this previous in
    let change := div distance previous in
    write_previous distance ;;
    ret (Some {| distance := distance; midpoint := midpoint; change := change |}).

(** [end(state)]. *)
Definition end_ : Hook num unit := refresh.

(** [cancel(state)]. *)
Definition cancel : Hook num unit := refresh.

(** The hook that answers a phase, with what the call evaluates to: a
    recognized result, or [None] for both [null] and [undefined]. *)
Definition hook (p : Phase) : Hook num (option (PinchData num)) :=
  match p with
  | PhaseStart => start ;; ret None
  | PhaseMove => move
  | PhaseEnd => end_ ;; ret None
  | PhaseCancel => cancel ;; ret None
  end.

(** Successive [move] calls on one gesture, each on the state as it is at
    that call, with no other hook in between; the results in call order
    and the gesture afterwards. *)
Fixpoint moves (g : Pinch num) (states : list (State num))
  : list (option (PinchData num)) * Pinch num :=
  match states with
  | [] => ([], g)
  | s :: rest =>
      let (r, h) := move {| this := g; state := s |} in
      let (rs, g') := moves (this h) rest in
      (r :: rs, g')
  end.

(** The [change] values of the recognized results. *)
Definition changes (results : list (option (PinchData num))) : list num :=
  omap (λ r, change <$> r) results.

(** The running scale a caller keeps by applying each [change] in turn. *)
Definition compose (cs : list num) : num := fold_left mul cs one.

(** The average distance a hook measures on a state. *)
Definition measured (s : State num) : num :=
  averageDistanceTo (centroid s) (activePoints s).

(** What the specification says of consecutive changes: each is the new
    distance over the one before, starting from [previousDistance]. *)
Fixpoint ratios (previousDistance : num) (distances : list num) : list num :=
  match distances with
  | [] => []
  | newDistance :: rest =>
      div newDistance previousDistance :: ratios newDistance rest
  end.

(** A run of the recognizer: for each event in turn, the hook of its phase
    is called on the state as it is then; the results in call order and the
    gesture afterwards. *)
Fixpoint run (g : Pinch num) (events : list (Phase * State num))
  : list (option (PinchData num)) * Pinch num :=
  match events with
  | [] => ([], g)
  | (p, s) :: rest =>
      let (r, h) := hook p {| this := g; state := s |} in
      let (rs, g') := run (this h) rest in
      (r :: rs, g')
  end.

(** What composing the changes relies on: between consecutive distances
    [d] and [d'], the cancellation [(d / p) * (d' / d) = d' / p] is exact
    in the arithmetic at hand, [p] being the first [previousDistance]. *)
Fixpoint cancelsExactly (p d : num) (rest : list num) : Prop :=
  match rest with
  | [] => True
  | d' :: rest' =>
      mul (div d p) (div d' d) = div d' p ∧ cancelsExactly p d' rest'
  end.

(** The same from the start of the caller's product: [1 * (d / p)] is
    [d / p] for the first distance [d], and then every cancellation is
    exact; with no distance at all, [p / p] is [1]. *)
Definition composesExactly (p : num) (distances : list num) : Prop :=
  match distances with
  | [] => div p p = one
  | d :: rest => mul one (div d p) = div d p ∧ cancelsExactly p d rest
  end.
End Hooks.

End Pinch.

(** ** The client's Interactor

    The Interactor sits between the gesture library and the handlers of the
    client controller.  The gesture library it binds to (ZingTouch) is
    external: its Rotate recognizer and its state enter as parameters. *)

Module Interactor.

Section Handlers.
(** The application behind the handlers: a handler is called with numbers
    and acts on it. *)
Context {App : Type}.

Definition Handler : Type := list float → App → App.

(** [const HANDLERS = Object.freeze({ pan: NOP, rotate: NOP, tap: NOP, zoom: NOP })]. *)
Definition HANDLERS : gmap string Handler :=
  {[ "pan" := Util.NOP; "rotate" := Util.NOP; "tap" := Util.NOP; "zoom" := Util.NOP ]}.

(** The part of an Interactor its gesture callbacks use. *)
Record Interactor : Type := { handlers : gmap string Handler }.

(** [constructor(canvas, handlers = {})], as far as the handlers go:
    [this.handlers = getInitialValues(HANDLERS, handlers)]. *)
Definition constructor (handlers : gmap string Handler) : Interactor :=
  {| handlers := Util.getInitialValues HANDLERS handlers |}.

(** Calling the property [name] of [this.handlers]: a [TypeError] when there
    is no such property. *)
Definition call_handler (this : Interactor) (name : string) (args : list float)
    (app : App) : Completion App :=
  match handlers this !! name with
  | Some handler => Normal (handler args app)
  | None => Throw ("TypeError: this.handlers." +:+ name +:+ " is not a function")
  end.

(** The [detail] of a rotate event of the gesture library. *)
Record RotateDetail : Type := { distanceFromLast : float }.

(** [rotate({ detail })]; [degrees * Math.PI / 180] groups to the left. *)
Definition rotate (this : Interactor) (detail : RotateDetail) (app : App)
    : Completion App :=
  let degrees := distanceFromLast detail in
  let radians := (degrees * PI / 180)%float in
  call_handler this "rotate" [radians] app.

(** The [detail] of a pinch event, and [pinch({ detail })]; the literal is
    the double that [0.005] denotes. *)
Record PinchDetail : Type := { detail_change : float }.

Definition pinch (this : Interactor) (detail : PinchDetail) (app : App)
    : Completion App :=
  call_handler this "zoom" [(detail_change detail * 0x1.47ae147ae147bp-8)%float] app.

(** A pointer event, as far as the callbacks read it. *)
Record PointerEvent : Type := { clientX : float; clientY : float }.

(** The [detail] of a pan event: its events, and its data with their
    [change]. *)
Record PanData : Type := { change : Gestures.Point2D float }.
Record PanDetail : Type := { pan_events : list PointerEvent; data : list PanData }.

(** [pan({ detail })].  [detail.events[0]] may be [undefined]; taking
    [change] out of an [undefined] [detail.data[0]], and then reading
    [clientX] of an [undefined] event, throw. *)
Definition pan (this : Interactor) (detail : PanDetail) (app : App)
    : Completion App :=
  let event := pan_events detail !! 0%nat in
  match data detail !! 0%nat with
  | None => Throw "TypeError: detail.data[0] is undefined"
  | Some first =>
      match event with
      | None => Throw "TypeError: event is undefined"
      | Some event =>
          call_handler this "pan"
            [clientX event; clientY event;
             Gestures.x (change first); Gestures.y (change first)] app
      end
  end.

(** The [detail] of a tap event, and [tap({ detail })]. *)
Record TapDetail : Type := { tap_events : list PointerEvent }.

Definition tap (this : Interactor) (detail : TapDetail) (app : App)
    : Completion App :=
  match tap_events detail !! 0%nat with
  | None => Throw "TypeError: event is undefined"
  | Some event => call_handler this "tap" [clientX event; clientY event] app
  end.

(** [Math.sign]: 1 or -1 by the sign, and the argument itself when it is a
    zero or [NaN]. *)
Definition Math_sign (v : float) : float :=
  if (0 <? v)%float then 1%float
  else if (v <? 0)%float then (-1)%float
  else v.

(** A wheel event, and [event.preventDefault()]. *)
Record WheelEvent : Type := {
  deltaY : float;
  ctrlKey : bool;
  defaultPrevented : bool
}.

Definition preventDefault (event : WheelEvent) : WheelEvent :=
  {| deltaY := deltaY event; ctrlKey := ctrlKey event; defaultPrevented := true |}.

(** [wheel(event)]: the event afterwards and how the call completes.  The
    literals are the doubles that [0.10] and [0.02] denote. *)
Definition wheel (this : Interactor) (event : WheelEvent) (app : App)
    : WheelEvent * Completion App :=
  let event := preventDefault event in
  let factor :=
    if ctrlKey event then 0x1.999999999999ap-4%float
    else 0x1.47ae147ae147bp-6%float in
  (event,
   call_handler this "zoom" [(- (Math_sign (deltaY event) * factor))%float] app).
End Handlers.
Arguments Handler App : clear implicits.
Arguments Interactor App : clear implicits.

Section Rotater.
(** ZingTouch's side: the memory of a Rotate recognizer, the arguments of
    its [move] hook, and what a recognized move returns. *)
Context {Rotate Inputs ZState Element RotateData : Type}.

(** [state.numActiveInputs()] of ZingTouch's state. *)
Variable numActiveInputs : ZState → Z.

(** A [move] hook: called on [this] with [(inputs, state, element)], it
    returns [null] or its data and may update [this]. *)
Definition MoveHook : Type :=
  Rotate → Inputs → ZState → Element → option RotateData * Rotate.

(** A gesture object: its memory and its [move] property. *)
Record RotateGesture : Type := { memory : Rotate; move : MoveHook }.

(** [refineRotateMove(inputs, state, element)], closed over the original
    [rotateMove]. *)
Definition refineRotateMove (rotateMove : MoveHook) : MoveHook :=
  λ this inputs state element,
    if numActiveInputs state =? 2
    then rotateMove this inputs state element
    else (None, this).

(** [rotater()], from the object that [new ZingTouch.Rotate()] returns. *)
Definition rotater (new_Rotate : RotateGesture) : RotateGesture :=
  let rotate := new_Rotate in
  let rotateMove := move rotate in
  {| memory := memory rotate; move := refineRotateMove rotateMove |}.
End Rotater.

(** *** Handlers objects whose properties need not be functions

    [getInitialValues] takes over whatever own property the supplied object
    has under a key of [HANDLERS], a function or not, and calling a property
    that is not a function throws.  The class once more, on such objects. *)
Module Untyped.

Section Handlers.
Context {App : Type}.

(** An own property of a handlers object: a function, or any other value
    ([undefined], a number, ...). *)
Inductive Entry : Type :=
| Function (handler : Handler App)
| NotFunction.

Definition HANDLERS : gmap string Entry :=
  {[ "pan" := Function Util.NOP; "rotate" := Function Util.NOP;
     "tap" := Function Util.NOP; "zoom" := Function Util.NOP ]}.

Record Interactor : Type := { handlers : gmap string Entry }.

Definition constructor (handlers : gmap string Entry) : Interactor :=
  {| handlers := Util.getInitialValues HANDLERS handlers |}.

Definition call_handler (this : Interactor) (name : string) (args : list float)
    (app : App) : Completion App :=
  match handlers this !! name with
  | Some (Function handler) => Normal (handler args app)
  | _ => Throw ("TypeError: this.handlers." +:+ name +:+ " is not a function")
  end.

Definition rotate (this : Interactor) (detail : RotateDetail) (app : App)
    : Completion App :=
  let degrees := distanceFromLast detail in
  let radians := (degrees * PI / 180)%float in
  call_handler this "rotate" [radians] app.

Definition pinch (this : Interactor) (detail : PinchDetail) (app : App)
    : Completion App :=
  call_handler this "zoom" [(detail_change detail * 0x1.47ae147ae147bp-8)%float] app.

Definition pan (this : Interactor) (detail : PanDetail) (app : App)
    : Completion App :=
  let event := pan_events detail !! 0%nat in
  match data detail !! 0%nat with
  | None => Throw "TypeError: detail.data[0] is undefined"
  | Some first =>
      match event with
      | None => Throw "TypeError: event is undefined"
      | Some event =>
          call_handler this "pan"
            [clientX event; clientY event;
             Gestures.x (change first); Gestures.y (change first)] app
      end
  end.

Definition tap (this : Interactor) (detail : TapDetail) (app : App)
    : Completion App :=
  match tap_events detail !! 0%nat with
  | None => Throw "TypeError: event is undefined"
  | Some event => call_handler this "tap" [clientX event; clientY event] app
  end.

Definition wheel (this : Interactor) (event : WheelEvent) (app : App)
    : WheelEvent * Completion App :=
  let event := preventDefault event in
  let factor :=
    if ctrlKey event then 0x1.999999999999ap-4%float
    else 0x1.47ae147ae147bp-6%float in
  (event,
   call_handler this "zoom" [(- (Math_sign (deltaY event) * factor))%float] app).
End Handlers.
Arguments Entry App : clear implicits.
Arguments Interactor App : clear implicits.

End Untyped.

End Interactor.

(** ** Concrete inputs used below *)

Module Examples.
Import Gestures.

(** Bindings as pairs of an id and a name. *)
Definition binding_id : Z * string → Z := fst.

Section Contacts.
Context {num : Type} `{Number num}.

(** A contact that is moving at [p]. *)
Definition contact (id : Z) (p : Point2D num) : Input num :=
  {| identifier := id; initial := p; current := p; previous := p;
     phase := PhaseMove |}.

(** The state with two active contacts, at [p] and at [q]. *)
Definition twoContacts (p q : Point2D num) : State num :=
  stateOf [contact 1 p; contact 2 q].

(** A Pinch with the default [minInputs] whose memory is [d]. *)
Definition pinchAt (d : num) : Pinch.Pinch num :=
  {| Pinch.type := "pinch"; Pinch.minInputs := 2; Pinch.previous := d |}.
End Contacts.

(** Two contacts on the x axis, on doubles and on reals. *)
Definition onAxis (a b : float) : State float :=
  twoContacts {| x := a; y := 0%float |} {| x := b; y := 0%float |}.

Definition onAxisR (a b : R) : State R :=
  twoContacts {| x := a; y := 0%R |} {| x := b; y := 0%R |}.

(** The same two points as [onAxis], reported by contacts with other
    identifiers, in their end phase. *)
Definition onAxisEnding (a b : float) : State float :=
  {| active := [ {| identifier := 7; initial := {| x := a; y := 0%float |};
                    current := {| x := a; y := 0%float |};
                    previous := {| x := a; y := 0%float |};
                    phase := PhaseEnd |};
                 {| identifier := 8; initial := {| x := b; y := 0%float |};
                    current := {| x := b; y := 0%float |};
                    previous := {| x := b; y := 0%float |};
                    phase := PhaseEnd |} ];
     activePoints := activePoints (onAxis a b);
     centroid := centroid (onAxis a b) |}.

(** One contact only. *)
Definition oneContact (a : float) : State float :=
  stateOf [contact 1 {| x := a; y := 0%float |}].

(** An application that logs the arguments of each call it receives. *)
Definition logCall : Interactor.Handler (list (list float)) :=
  λ args log, args :: log.

(** A stand-in for the external state: just its number of active inputs. *)
Definition activeCount : Z → Z := λ n, n.

(** A stand-in for the external Rotate recognizer, with a laxer threshold
    than two: it reports 90 degrees whenever at least two inputs are active,
    and counts its calls. *)
Definition laxRotate : @Interactor.RotateGesture nat unit Z unit float :=
  {| Interactor.memory := 0%nat;
     Interactor.move := λ calls _ n _,
       if 2 <=? n then (Some 90%float, S calls) else (None, S calls) |}.

(** Values for the objects below: [undefined], numbers and strings. *)
Inductive JSValue : Type :=
| JSUndefined
| JSNumber (n : Z)
| JSString (s : string).

#[export] Instance JSValue_eq_dec : EqDecision JSValue.
Proof. solve_decision. Defined.

(** An extensible object without an [id], and the same object once
    [defineOwnImmutableEnumerableProperty(obj, 'id', 7)] has run. *)
Definition unstamped : JSObject.Obj JSValue string :=
  {| JSObject.properties := {[ "x" := JSObject.Data (JSNumber 0) true true true ]};
     JSObject.extensible := true |}.

Definition stamped : JSObject.Obj JSValue string :=
  {| JSObject.properties :=
       <["id" := JSObject.Data (JSNumber 7) false true false]>
         (JSObject.properties unstamped);
     JSObject.extensible := true |}.

(** An object whose [id] is an ordinary property: writable and
    configurable. *)
Definition plainItem : JSObject.Obj JSValue string :=
  {| JSObject.properties :=
       {[ "id" := JSObject.Data (JSNumber 7) true true true;
          "x" := JSObject.Data (JSNumber 0) true true true ]};
     JSObject.extensible := true |}.

(** A callback for [findLast]: accepts the even numbers. *)
Definition isEven : @Util.Callback Z unit :=
  λ _ v _ _, match v with Some n => Z.even n | None => false end.

(** A class every binding is an instance of. *)
Definition Binding : @Util.ClassFn (Z * string) :=
  {| Util.toString := "class Binding"; Util.hasInstance := λ _, true |}.

(** A class no binding is an instance of. *)
Definition Stranger : @Util.ClassFn (Z * string) :=
  {| Util.toString := "class Stranger"; Util.hasInstance := λ _, false |}.

(** Defaults and data for [getInitialValues]. *)
Definition viewDefaults : gmap string Z := {[ "x" := 0; "y" := 0 ]}.
Definition viewData : gmap string Z := {[ "x" := 5; "z" := 1 ]}.
Definition viewDataTrimmed : gmap string Z := {[ "x" := 5 ]}.

(** A run of three events: two moves with two contacts, then the end of a
    gesture that leaves one contact. *)
Definition pinchRun : list (Phase * State float) :=
  [(PhaseMove, onAxis (-100) 100);
   (PhaseMove, onAxis (-100) 200);
   (PhaseEnd, oneContact 5)].

(** Cells of an array that may hold [null] and [undefined]; a callback that
    accepts every cell, and one that accepts the numbers above 2. *)
Inductive Cell : Type :=
| CellUndefined
| CellNull
| CellNumber (n : Z).

Definition acceptAll : @Util.Callback Cell unit := λ _ _ _ _, true.

Definition aboveTwo : @Util.Callback Cell unit :=
  λ _ v _ _, match v with Some (CellNumber n) => 2 <? n | _ => false end.

(** A handlers object with an own property that is no handler of the
    Interactor, and one whose [rotate] is not a function. *)
Definition strayHandlers : gmap string (Interactor.Untyped.Entry (list (list float))) :=
  {[ "scroll" := Interactor.Untyped.Function logCall ]}.

Definition brokenHandlers : gmap string (Interactor.Untyped.Entry (list (list float))) :=
  {[ "rotate" := Interactor.Untyped.NotFunction ]}.
End Examples.

(** * Properties *)

(** ** Removal by id (src/shared/util.js) *)

Section ByIdFacts.
Context {T Id : Type} `{EqDecision Id}.
Variable id : T → Id.
Implicit Types (array before after : list T) (item o : T).

Lemma findIndexFrom_none (callback : T → bool) k array :
  Forall (λ o, callback o = false) array →
  Util.findIndexFrom callback k array = -1.
Proof.
  intros Hall. revert k.
  induction Hall as [|o rest Ho _ IH]; intros k; simpl; [done|].
  rewrite Ho. apply IH.
Qed.

Lemma findIndexFrom_first (callback : T → bool) k before o after :
  Forall (λ b, callback b = false) before →
  callback o = true →
  Util.findIndexFrom callback k (before ++ o :: after) = k + Z.of_nat (length before).
Proof.
  intros Hbefore Ho. revert k.
  induction Hbefore as [|b rest Hb _ IH]; intros k; simpl.
  - rewrite Ho. lia.
  - rewrite Hb, IH. lia.
Qed.

Lemma same_id_false item array :
  Forall (λ o, id o ≠ id item) array →
  Forall (λ o, bool_decide (id o = id item) = false) array.
Proof.
  intros Hall. eapply Forall_impl; [exact Hall|].
  intros o Ho. by apply bool_decide_eq_false.
Qed.

(** Without an element of the item's id nothing is removed. *)
Lemma removeById_absent array item :
  Forall (λ o, id o ≠ id item) array →
  Util.removeById id array item = (false, array).
Proof.
  intros Habsent. unfold Util.removeById, Util.findIndex.
  rewrite findIndexFrom_none by by apply same_id_false.
  done.
Qed.

(** The first element of the item's id is the one removed. *)
Lemma removeById_first before o after item :
  id o = id item →
  Forall (λ b, id b ≠ id item) before →
  Util.removeById id (before ++ o :: after) item = (true, before ++ after).
Proof.
  intros Ho Hbefore. unfold Util.removeById, Util.findIndex, Util.splice1.
  rewrite findIndexFrom_first
    by (by apply same_id_false || by apply bool_decide_eq_true).
  replace (0 <=? 0 + Z.of_nat (length before)) with true
    by (symmetry; apply Z.leb_le; lia).
  f_equal.
  replace (Z.to_nat (0 + Z.of_nat (length before))) with (length before) by lia.
  by rewrite delete_middle.
Qed.

(** Every array falls under one of the two lemmas above. *)
Lemma first_of_id array item :
  Forall (λ o, id o ≠ id item) array
  ∨ ∃ before o after,
      array = before ++ o :: after ∧ id o = id item
      ∧ Forall (λ b, id b ≠ id item) before.
Proof.
  induction array as [|a rest IH]; [by left|].
  destruct (decide (id a = id item)) as [Ha|Ha].
  - right. by exists [], a, rest.
  - destruct IH as [Hrest|(before & o & after & -> & Ho & Hbefore)].
    + left. by constructor.
    + right. exists (a :: before), o, after. repeat split; [done|by constructor].
Qed.

(** The array only ever loses elements of the item's id. *)
Lemma removeById_keeps_others array item :
  filter (λ o, id o ≠ id item) (Util.removeById id array item).2
  = filter (λ o, id o ≠ id item) array.
Proof.
  destruct (first_of_id array item) as [Habsent|(before & o & after & -> & Ho & Hbefore)].
  - by rewrite removeById_absent.
  - rewrite removeById_first by done. simpl.
    rewrite !filter_app, filter_cons_False; [done|]. by intros Hne.
Qed.

(** [safeRemoveById] is [removeById] on an instance of the class, and throws
    without touching the array otherwise. *)
Lemma safeRemoveById_instance array item (class_fn : Util.ClassFn) :
  Util.hasInstance class_fn item = true →
  Util.safeRemoveById id array item class_fn
  = (Normal (Util.removeById id array item).1, (Util.removeById id array item).2).
Proof.
  intros Hinst. unfold Util.safeRemoveById. rewrite Hinst. simpl.
  by destruct (Util.removeById id array item).
Qed.

Lemma safeRemoveById_throws array item (class_fn : Util.ClassFn) :
  Util.hasInstance class_fn item = false →
  ∃ msg, Util.safeRemoveById id array item class_fn = (Throw msg, array).
Proof.
  intros Hinst. unfold Util.safeRemoveById. rewrite Hinst. simpl. eauto.
Qed.

(** C10, as amended.  When the array holds an element with the item's id,
    [removeById] removes exactly the first such element and returns [true];
    if no other element has that id, a second removal of the same item
    returns [false] and leaves the array as it is. *)
Theorem removeById_first_then_idempotent before o after item :
  id o = id item →
  Forall (λ b, id b ≠ id item) before →
  Util.removeById id (before ++ o :: after) item = (true, before ++ after)
  ∧ (Forall (λ a, id a ≠ id item) after →
     Util.removeById id (before ++ after) item = (false, before ++ after)).
Proof.
  intros Ho Hbefore. split; [by apply removeById_first|].
  intros Hafter. apply removeById_absent. by apply Forall_app.
Qed.
End ByIdFacts.

Import Examples.

Lemma removeById_first_then_idempotent_witness :
  Util.removeById binding_id [(1, "pan"); (2, "pinch"); (3, "rotate")] (2, "pinch")
    = (true, [(1, "pan"); (3, "rotate")])
  ∧ Util.removeById binding_id [(1, "pan"); (3, "rotate")] (2, "pinch")
    = (false, [(1, "pan"); (3, "rotate")]).
Proof.
  destruct (removeById_first_then_idempotent binding_id
              [(1, "pan")] (2, "pinch") [(3, "rotate")] (2, "pinch"))
    as [Hfirst Hsecond].
  - reflexivity.
  - repeat constructor. discriminate.
  - split; [exact Hfirst|]. apply Hsecond. repeat constructor. discriminate.
Defined.

(** C10 as stated fails on an array in which two elements share the id: the
    second removal of the same item returns [true] again and removes the
    other element. *)
Lemma removeById_twice_shared_id :
  Util.removeById binding_id [(1, "pan"); (1, "pinch")] (1, "pan")
    = (true, [(1, "pinch")])
  ∧ Util.removeById binding_id [(1, "pinch")] (1, "pan") = (true, [])
  ∧ Util.removeById binding_id [(1, "pinch")] (1, "pan") ≠ (false, [(1, "pinch")]).
Proof. repeat split. discriminate. Qed.

(** ** Doubles: dividing by zero *)

Lemma is_zero_inv (z : float) :
  PrimFloat.is_zero z = true → ∃ sign, Prim2SF z = S754_zero sign.
Proof.
  unfold PrimFloat.is_zero. rewrite FloatAxioms.eqb_spec.
  destruct (Prim2SF z) as [sign|sign| |sign m e]; try (by eauto).
  - by destruct sign.
  - by destruct sign.
Qed.

Lemma is_finite_false (c : float) :
  Prim2SF c = S754_nan ∨ (∃ sign, Prim2SF c = S754_infinity sign) →
  PrimFloat.is_finite c = false.
Proof.
  unfold PrimFloat.is_finite, PrimFloat.is_nan, PrimFloat.is_infinity.
  rewrite !FloatAxioms.eqb_spec, abs_spec.
  intros [-> | [sign ->]]; [done|]. by destruct sign.
Qed.

(** Whatever is divided by a zero, the quotient is [NaN] or an infinity. *)
Lemma div_zero_not_finite (d z : float) :
  PrimFloat.is_zero z = true → PrimFloat.is_finite (d / z) = false.
Proof.
  intros [sz Hz]%is_zero_inv. apply is_finite_false.
  rewrite div_spec, Hz. unfold SF64div, SFdiv.
  destruct (Prim2SF d); eauto.
Qed.

(** ** The Pinch recognizer (src/gestures/gestures/Pinch.js) *)

Import Gestures.

(** Unfolds a hook down to the heap it returns. *)
Ltac run_hook :=
  unfold Pinch.hook, Pinch.start, Pinch.end_, Pinch.cancel, Pinch.refresh,
    Pinch.move, Pinch.bind, Pinch.read_state, Pinch.read_this,
    Pinch.write_previous, Pinch.ret; simpl.

Section PinchFacts.
Context {num : Type} `{Number num}.
Implicit Types (g : Pinch.Pinch num) (s : State num) (h : Pinch.Heap num).

(** [move] in one equation. *)
Lemma move_unfold g s :
  Pinch.move {| Pinch.this := g; Pinch.state := s |}
  = if Z.of_nat (length (active s)) <? Pinch.minInputs g
    then (None, {| Pinch.this := g; Pinch.state := s |})
    else (Some {| Pinch.distance := Pinch.measured s;
                  Pinch.midpoint := centroid s;
                  Pinch.change := div (Pinch.measured s) (Pinch.previous g) |},
          {| Pinch.this := Pinch.setPrevious g (Pinch.measured s);
             Pinch.state := s |}).
Proof. run_hook. by destruct (_ <? _). Qed.

(** [refresh] in one equation. *)
Lemma refresh_unfold g s :
  Pinch.refresh {| Pinch.this := g; Pinch.state := s |}
  = (tt, if Pinch.minInputs g <=? Z.of_nat (length (active s))
         then {| Pinch.this := Pinch.setPrevious g (Pinch.measured s);
                 Pinch.state := s |}
         else {| Pinch.this := g; Pinch.state := s |}).
Proof. run_hook. by destruct (_ <=? _). Qed.

(** Brings the hook of a phase to one of the two equations. *)
Ltac hook_equation :=
  unfold Pinch.hook, Pinch.start, Pinch.end_, Pinch.cancel, Pinch.bind, Pinch.ret;
  rewrite ?refresh_unfold, ?move_unfold; simpl.

(** C4.  With at least [minInputs] active contacts, [move] returns
    [{distance, midpoint, change}]: [midpoint] is the state's centroid,
    [distance] the average distance from it to the active points, and
    [change] is [distance / previous]; [distance] is then stored as the new
    [previous]. *)
Theorem move_recognized g s :
  Pinch.minInputs g ≤ Z.of_nat (length (active s)) →
  Pinch.move {| Pinch.this := g; Pinch.state := s |}
  = (Some {| Pinch.distance := averageDistanceTo (centroid s) (activePoints s);
             Pinch.midpoint := centroid s;
             Pinch.change := div (averageDistanceTo (centroid s) (activePoints s))
                                 (Pinch.previous g) |},
     {| Pinch.this :=
          {| Pinch.type := Pinch.type g;
             Pinch.minInputs := Pinch.minInputs g;
             Pinch.previous := averageDistanceTo (centroid s) (activePoints s) |};
        Pinch.state := s |}).
Proof.
  intros Henough. rewrite move_unfold.
  by replace (_ <? _) with false by (symmetry; apply Z.ltb_ge; lia).
Qed.

(** C6.  With fewer active contacts than [minInputs] (an empty active list
    included), [move] returns [null], raises nothing, and leaves the gesture
    and its [previous] as they were. *)
Theorem move_insufficient g s :
  Z.of_nat (length (active s)) < Pinch.minInputs g →
  Pinch.move {| Pinch.this := g; Pinch.state := s |}
  = (None, {| Pinch.this := g; Pinch.state := s |}).
Proof.
  intros Hfew. rewrite move_unfold.
  by replace (_ <? _) with true by (symmetry; apply Z.ltb_lt; lia).
Qed.

(** C7.  [start], [end] and [cancel] return nothing; with at least
    [minInputs] active contacts they set [previous] to the current average
    distance from the centroid to the active points, and with fewer they
    leave it unchanged. *)
Theorem refresh_hooks g s (hook : Pinch.Hook num unit) :
  hook = Pinch.start ∨ hook = Pinch.end_ ∨ hook = Pinch.cancel →
  (Pinch.minInputs g ≤ Z.of_nat (length (active s)) →
   hook {| Pinch.this := g; Pinch.state := s |}
   = (tt, {| Pinch.this :=
               {| Pinch.type := Pinch.type g;
                  Pinch.minInputs := Pinch.minInputs g;
                  Pinch.previous := averageDistanceTo (centroid s) (activePoints s) |};
             Pinch.state := s |}))
  ∧ (Z.of_nat (length (active s)) < Pinch.minInputs g →
     hook {| Pinch.this := g; Pinch.state := s |}
     = (tt, {| Pinch.this := g; Pinch.state := s |})).
Proof.
  intros Hhook.
  assert (hook = Pinch.refresh) as -> by (by destruct Hhook as [->|[->| ->]]).
  rewrite refresh_unfold. split; intros Hlen.
  - by replace (_ <=? _) with true by (symmetry; apply Z.leb_le; lia).
  - by replace (_ <=? _) with false by (symmetry; apply Z.leb_gt; lia).
Qed.

(** C9.  Whatever the phase, the hook leaves the state it is handed as it
    was and writes nothing of the gesture but [previous]; and it reads the
    state only through the length of [active], [centroid] and
    [activePoints]: on two states that agree on these it returns the same
    result and leaves the same gesture. *)
Theorem hooks_frame (p : Phase) g s :
  Pinch.state (Pinch.hook p {| Pinch.this := g; Pinch.state := s |}).2 = s
  ∧ Pinch.minInputs (Pinch.this (Pinch.hook p {| Pinch.this := g; Pinch.state := s |}).2)
    = Pinch.minInputs g
  ∧ Pinch.type (Pinch.this (Pinch.hook p {| Pinch.this := g; Pinch.state := s |}).2)
    = Pinch.type g
  ∧ ∀ s',
      length (active s') = length (active s) →
      centroid s' = centroid s →
      activePoints s' = activePoints s →
      (Pinch.hook p {| Pinch.this := g; Pinch.state := s' |}).1
      = (Pinch.hook p {| Pinch.this := g; Pinch.state := s |}).1
      ∧ Pinch.this (Pinch.hook p {| Pinch.this := g; Pinch.state := s' |}).2
        = Pinch.this (Pinch.hook p {| Pinch.this := g; Pinch.state := s |}).2.
Proof.
  split; [|split; [|split]].
  1-3: by destruct p; hook_equation; destruct (_ <=? _) || destruct (_ <? _).
  intros s' Hlen Hcentroid Hpoints.
  destruct p; hook_equation; unfold Pinch.measured;
    rewrite Hlen, Hcentroid, Hpoints;
    by destruct (_ <=? _) || destruct (_ <? _).
Qed.
End PinchFacts.

Lemma move_recognized_witness :
  Pinch.move {| Pinch.this := pinchAt 100%float; Pinch.state := onAxis (-100) 200 |}
  = (Some {| Pinch.distance := 150%float;
             Pinch.midpoint := {| x := 50%float; y := 0%float |};
             Pinch.change := 1.5%float |},
     {| Pinch.this := pinchAt 150%float; Pinch.state := onAxis (-100) 200 |}).
Proof.
  assert (Pinch.minInputs (pinchAt 100%float)
          ≤ Z.of_nat (length (active (onAxis (-100) 200)))) as Henough
    by (simpl; lia).
  exact (move_recognized (pinchAt 100%float) (onAxis (-100) 200) Henough).
Defined.

Lemma move_insufficient_witness :
  Pinch.move {| Pinch.this := pinchAt 100%float; Pinch.state := oneContact 5 |}
  = (None, {| Pinch.this := pinchAt 100%float; Pinch.state := oneContact 5 |})
  ∧ Pinch.move {| Pinch.this := pinchAt 100%float; Pinch.state := stateOf [] |}
    = (None, {| Pinch.this := pinchAt 100%float; Pinch.state := stateOf [] |}).
Proof.
  split.
  - apply (move_insufficient (pinchAt 100%float) (oneContact 5)). simpl. lia.
  - apply (move_insufficient (pinchAt 100%float) (stateOf [])). simpl. lia.
Defined.

Lemma refresh_hooks_witness :
  Pinch.start {| Pinch.this := pinchAt 100%float; Pinch.state := onAxis (-100) 200 |}
  = (tt, {| Pinch.this := pinchAt 150%float; Pinch.state := onAxis (-100) 200 |})
  ∧ Pinch.cancel {| Pinch.this := pinchAt 100%float; Pinch.state := oneContact 5 |}
    = (tt, {| Pinch.this := pinchAt 100%float; Pinch.state := oneContact 5 |}).
Proof.
  split.
  - assert (Pinch.minInputs (pinchAt 100%float)
            ≤ Z.of_nat (length (active (onAxis (-100) 200)))) as Henough
      by (simpl; lia).
    exact (proj1 (refresh_hooks (pinchAt 100%float) (onAxis (-100) 200) Pinch.start
                    (or_introl eq_refl)) Henough).
  - apply (refresh_hooks (pinchAt 100%float) (oneContact 5) Pinch.cancel).
    + right. right. reflexivity.
    + simpl. lia.
Defined.

Lemma hooks_frame_witness :
  (Pinch.hook PhaseMove
     {| Pinch.this := pinchAt 100%float; Pinch.state := onAxisEnding (-100) 200 |}).1
  = (Pinch.hook PhaseMove
       {| Pinch.this := pinchAt 100%float; Pinch.state := onAxis (-100) 200 |}).1
  ∧ Pinch.this
      (Pinch.hook PhaseMove
         {| Pinch.this := pinchAt 100%float; Pinch.state := onAxisEnding (-100) 200 |}).2
    = Pinch.this
        (Pinch.hook PhaseMove
           {| Pinch.this := pinchAt 100%float; Pinch.state := onAxis (-100) 200 |}).2.
Proof.
  destruct (hooks_frame PhaseMove (pinchAt 100%float) (onAxis (-100) 200))
    as (_ & _ & _ & Hreads).
  apply (Hreads (onAxisEnding (-100) 200)); reflexivity.
Defined.

(** Successive recognized moves: every call is recognized, the changes are
    the ratios of consecutive distances, and [previous] ends as the last
    distance measured. *)
Lemma moves_recognized {num : Type} `{Number num}
    (g : Pinch.Pinch num) (states : list (State num)) :
  Forall (λ s, Pinch.minInputs g ≤ Z.of_nat (length (active s))) states →
  Forall is_Some (Pinch.moves g states).1
  ∧ Pinch.changes (Pinch.moves g states).1
    = Pinch.ratios (Pinch.previous g) (Pinch.measured <$> states)
  ∧ Pinch.previous (Pinch.moves g states).2
    = default (Pinch.previous g) (last (Pinch.measured <$> states)).
Proof.
  intros Hall. revert g Hall.
  induction states as [|s rest IH]; intros g Hall; [by repeat constructor|].
  apply Forall_cons in Hall as [Hs Hrest].
  simpl. rewrite move_unfold.
  replace (_ <? _) with false by (symmetry; apply Z.ltb_ge; lia). simpl.
  destruct (IH (Pinch.setPrevious g (Pinch.measured s)) Hrest) as (IH1 & IH2 & IH3).
  unfold Pinch.setPrevious, Pinch.measured in *.
  destruct (Pinch.moves _ rest) as [results g']. simpl in *.
  split; [by constructor|]. split.
  - unfold Pinch.changes in *. simpl. by rewrite IH2.
  - rewrite IH3, last_cons. by destruct (last _).
Qed.

(** Where every cancellation is exact, the ratios compose. *)
Lemma cancels_fold {num : Type} `{Number num} (p d : num) (rest : list num) :
  Pinch.cancelsExactly p d rest →
  fold_left mul (Pinch.ratios d rest) (div d p) = div (default d (last rest)) p.
Proof.
  revert d. induction rest as [|d' rest IH]; intros d; simpl; [done|].
  intros [Hstep Hrest]. rewrite Hstep, IH by done.
  rewrite last_cons. by destruct (last rest).
Qed.

Lemma ratios_compose {num : Type} `{Number num} (p : num) (distances : list num) :
  Pinch.composesExactly p distances →
  Pinch.compose (Pinch.ratios p distances) = div (default p (last distances)) p.
Proof.
  unfold Pinch.compose. destruct distances as [|d rest]; simpl.
  - by intros ->.
  - intros [Hfirst Hrest]. rewrite Hfirst, cancels_fold by done.
    rewrite last_cons. by destruct (last rest).
Qed.



(** In exact real arithmetic the cancellations are exact as soon as the
    initial [previous] and every distance but the last are not zero. *)
Lemma cancelsExactly_reals (p d : R) (rest : list R) :
  p ≠ 0%R →
  Forall (λ d', d' ≠ 0%R) (removelast (d :: rest)) →
  Pinch.cancelsExactly p d rest.
Proof.
  intros Hp. revert d. induction rest as [|d' rest IH]; intros d; [done|].
  change (removelast (d :: d' :: rest)) with (d :: removelast (d' :: rest)).
  intros [Hd Hrest]%Forall_cons. split; [|by apply IH].
  simpl. by field.
Qed.

Lemma composesExactly_reals (p : R) (distances : list R) :
  p ≠ 0%R →
  Forall (λ d, d ≠ 0%R) (removelast distances) →
  Pinch.composesExactly p distances.
Proof.
  intros Hp Hdistances. destruct distances as [|d rest]; simpl.
  - by field.
  - split; [by field|]. by apply cancelsExactly_reals.
Qed.

(** So in exact real arithmetic, with a non-zero initial [previous] and
    non-zero average distances up to the last but one, the changes of
    successive recognized moves compose to the final average distance over
    the initial [previous]. *)
Lemma changes_compose_reals (g : Pinch.Pinch R) (states : list (State R)) :
  Forall (λ s, Pinch.minInputs g ≤ Z.of_nat (length (active s))) states →
  Pinch.previous g ≠ 0%R →
  Forall (λ d, d ≠ 0%R) (removelast (Pinch.measured <$> states)) →
  Pinch.compose (Pinch.changes (Pinch.moves g states).1)
  = (Pinch.previous (Pinch.moves g states).2 / Pinch.previous g)%R.
Proof.
  intros Hrecognized Hprevious Hdistances.
  destruct (moves_recognized g states Hrecognized) as (_ & Hchanges & Hlast).
  rewrite Hchanges, Hlast.
  exact (ratios_compose (num := R) _ _
           (composesExactly_reals _ _ Hprevious Hdistances)).
Qed.

(** The average distance of two contacts on the x axis, on reals. *)
Lemma measured_onAxisR (a b : R) :
  (a <= b)%R → Pinch.measured (onAxisR a b) = ((b - a) / 2)%R.
Proof.
  intros Hab. unfold Pinch.measured, onAxisR, twoContacts, stateOf,
    averageDistanceTo, distanceTo, midpointOf. simpl.
  assert (0 <= (b - a) / 2)%R as Hhalf by lra.
  replace ((a - (0 + a + b) / (1 + 1)) * (a - (0 + a + b) / (1 + 1)) +
           (0 - (0 + 0 + 0) / (1 + 1)) * (0 - (0 + 0 + 0) / (1 + 1)))%R
    with (Rsqr ((b - a) / 2)) by (unfold Rsqr; field).
  replace ((b - (0 + a + b) / (1 + 1)) * (b - (0 + a + b) / (1 + 1)) +
           (0 - (0 + 0 + 0) / (1 + 1)) * (0 - (0 + 0 + 0) / (1 + 1)))%R
    with (Rsqr ((b - a) / 2)) by (unfold Rsqr; field).
  rewrite sqrt_Rsqr by done. field.
Qed.

(** On reals, from 100 to 150 and then to 0 (coincident contacts at the
    last call): the changes compose to 0 / 100. *)
Lemma changes_compose_reals_last_zero :
  Pinch.compose
    (Pinch.changes
       (Pinch.moves (pinchAt 100%R) [onAxisR (-100) 200; onAxisR 5 5]).1)
  = (0 / 100)%R.
Proof.
  rewrite changes_compose_reals.
  - destruct (moves_recognized (pinchAt 100%R) [onAxisR (-100) 200; onAxisR 5 5])
      as (_ & _ & ->); [repeat constructor; simpl; lia|].
    change (Pinch.measured (onAxisR 5 5) / 100 = 0 / 100)%R.
    rewrite measured_onAxisR by lra. lra.
  - repeat constructor; simpl; lia.
  - simpl. lra.
  - change (Forall (λ d : R, d ≠ 0%R) [Pinch.measured (onAxisR (-100) 200)]).
    repeat constructor. rewrite measured_onAxisR; lra.
Qed.

(** On doubles too a last distance of zero composes: from 100 to 50 and
    then to 0, the changes are 0.5 and 0 and their product is 0 / 100. *)
Lemma changes_compose_last_zero :
  Pinch.changes
    (Pinch.moves (pinchAt 100%float) [onAxis (-50) 50; onAxis 5 5]).1
  = [0.5%float; 0%float]
  ∧ Pinch.compose
      (Pinch.changes
         (Pinch.moves (pinchAt 100%float) [onAxis (-50) 50; onAxis 5 5]).1)
    = (0 / 100)%float.
Proof. by vm_compute. Qed.

(** On doubles the example of the specification is exact: from an average
    distance of 100, a move to 150 emits 1.5, a further move to 75 emits
    0.5, and the two compose to 0.75. *)
Lemma changes_100_150_75 :
  Pinch.measured (onAxis (-100) 100) = 100%float
  ∧ Pinch.changes
      (Pinch.moves (pinchAt 100%float) [onAxis (-100) 200; onAxis (-100) 50]).1
    = [1.5%float; 0.5%float]
  ∧ Pinch.compose
      (Pinch.changes
         (Pinch.moves (pinchAt 100%float) [onAxis (-100) 200; onAxis (-100) 50]).1)
    = 0.75%float.
Proof. by vm_compute. Qed.


(** C1, as amended.  With at least [minInputs] active contacts and a
    [previous] that is zero, [move] on doubles does not return [null] and
    does not throw: it returns the usual record, whose [change], a division
    by zero, is [NaN] or an infinity, and it stores the distance. *)
Theorem move_previous_zero (g : Pinch.Pinch float) (s : State float) :
  Pinch.minInputs g ≤ Z.of_nat (length (active s)) →
  PrimFloat.is_zero (Pinch.previous g) = true →
  ∃ data,
    Pinch.move {| Pinch.this := g; Pinch.state := s |}
    = (Some data,
       {| Pinch.this := Pinch.setPrevious g (Pinch.measured s); Pinch.state := s |})
    ∧ Pinch.distance data = Pinch.measured s
    ∧ Pinch.midpoint data = centroid s
    ∧ Pinch.change data = (Pinch.measured s / Pinch.previous g)%float
    ∧ PrimFloat.is_finite (Pinch.change data) = false.
Proof.
  intros Henough Hzero. rewrite move_unfold.
  replace (_ <? _) with false by (symmetry; apply Z.ltb_ge; lia).
  eexists. split; [done|]. simpl. repeat split.
  by apply div_zero_not_finite.
Qed.

Lemma move_previous_zero_witness :
  ∃ data,
    Pinch.move {| Pinch.this := pinchAt 0%float; Pinch.state := onAxis (-100) 100 |}
    = (Some data,
       {| Pinch.this := pinchAt 100%float; Pinch.state := onAxis (-100) 100 |})
    ∧ Pinch.change data = infinity.
Proof.
  destruct (move_previous_zero (pinchAt 0%float) (onAxis (-100) 100))
    as (data & Hmove & _ & _ & Hchange & _).
  - simpl. lia.
  - reflexivity.
  - exists data. split; [exact Hmove | exact Hchange].
Defined.

(** C1 as stated fails.  Two contacts at the same point: [start] records the
    distance 0 as [previous], and the next [move] on that state returns a
    record, not [null], whose [change] is [NaN]. *)
Lemma move_coincident_emits_nan :
  Pinch.this (Pinch.start {| Pinch.this := pinchAt 100%float;
                             Pinch.state := onAxis 5 5 |}).2
  = pinchAt 0%float
  ∧ (Pinch.move {| Pinch.this := pinchAt 0%float; Pinch.state := onAxis 5 5 |}).1
    = Some {| Pinch.distance := 0%float;
              Pinch.midpoint := {| x := 5%float; y := 0%float |};
              Pinch.change := nan |}
  ∧ (Pinch.move {| Pinch.this := pinchAt 0%float; Pinch.state := onAxis 5 5 |}).1
    ≠ None.
Proof. repeat split; by vm_compute. Qed.

(** C2, as amended.  A non-positive [minInputs] is not rejected: the
    constructor completes normally; [0] is replaced by the default 2 and a
    negative value is kept as it is. *)
Theorem constructor_nonpositive_minInputs {num : Type} `{Number num} (n : Z) :
  n ≤ 0 →
  Pinch.constructor {| Pinch.options_minInputs := Some n |}
  = Normal {| Pinch.type := "pinch";
              Pinch.minInputs := if n =? 0 then Pinch.DEFAULT_MIN_INPUTS else n;
              Pinch.previous := zero |}.
Proof. intros Hn. unfold Pinch.constructor. simpl. by destruct n. Qed.

Lemma constructor_nonpositive_minInputs_witness :
  Pinch.constructor (num := float) {| Pinch.options_minInputs := Some (-1) |}
  = Normal {| Pinch.type := "pinch"; Pinch.minInputs := -1;
              Pinch.previous := 0%float |}.
Proof.
  assert (-1 ≤ 0) as Hn by lia.
  exact (constructor_nonpositive_minInputs (num := float) (-1) Hn).
Defined.

(** C2 as stated fails: the constructor given [minInputs: -1] throws
    nothing and returns a gesture whose [minInputs] is [-1]. *)
Lemma constructor_negative_not_rejected :
  Pinch.constructor (num := float) {| Pinch.options_minInputs := Some (-1) |}
  = Normal {| Pinch.type := "pinch"; Pinch.minInputs := -1;
              Pinch.previous := 0%float |}
  ∧ ¬ ∃ msg,
      Pinch.constructor (num := float) {| Pinch.options_minInputs := Some (-1) |}
      = Throw msg.
Proof. split; [done|]. by intros [msg Hthrow]. Qed.

(** The constructor never throws, and without a [minInputs] the default
    applies. *)
Lemma constructor_completes {num : Type} `{Number num} (options : Pinch.Options) :
  ∃ g, Pinch.constructor options = Normal g ∧ Pinch.previous g = zero.
Proof. by eexists. Qed.

Lemma constructor_default :
  Pinch.constructor (num := float) {| Pinch.options_minInputs := None |}
  = Normal (pinchAt 0%float).
Proof. reflexivity. Qed.

(** What a negative [minInputs] leads to later: every state has enough
    contacts, the empty one too, on which [move] emits [NaN]s. *)
Lemma negative_minInputs_recognizes_empty :
  (Pinch.move {| Pinch.this := {| Pinch.type := "pinch"; Pinch.minInputs := -1;
                                  Pinch.previous := 0%float |};
                 Pinch.state := stateOf [] |}).1
  = Some {| Pinch.distance := nan;
            Pinch.midpoint := {| x := nan; y := nan |};
            Pinch.change := nan |}.
Proof. by vm_compute. Qed.

(** ** The Interactor *)

(** A key of [defaults] maps to the value of [data] when [data] has the
    key, and to the default otherwise; other keys are absent. *)
Lemma getInitialValues_lookup {V : Type} (defaults data : gmap string V) (k : string) :
  Util.getInitialValues defaults data !! k
  = (λ d, default d (data !! k)) <$> defaults !! k.
Proof.
  unfold Util.getInitialValues. rewrite map_lookup_imap.
  destruct (defaults !! k) as [d|]; simpl; [|done].
  by destruct (data !! k).
Qed.

Section InteractorFacts.
Context {App : Type}.
Implicit Types (supplied : gmap string (Interactor.Handler App)).

Lemma handlers_rotate supplied :
  Interactor.handlers (Interactor.constructor supplied) !! "rotate"
  = Some (default Util.NOP (supplied !! "rotate")).
Proof.
  unfold Interactor.constructor. simpl. rewrite getInitialValues_lookup.
  by unfold Interactor.HANDLERS.
Qed.

(** Without a registered rotate callback the default [NOP] is called. *)
Lemma rotate_unregistered supplied detail (app : App) :
  supplied !! "rotate" = None →
  Interactor.rotate (Interactor.constructor supplied) detail app = Normal app.
Proof.
  intros Hnone. unfold Interactor.rotate, Interactor.call_handler.
  rewrite handlers_rotate. unfold Interactor.Handler in *. by rewrite Hnone.
Qed.

(** C8.  The registered rotate callback is called with one number: the
    degrees of the recognizer ([distanceFromLast]) converted to radians,
    [degrees * Math.PI / 180], the sign kept. *)
Theorem rotate_delivers_radians supplied (callback : Interactor.Handler App)
    (detail : Interactor.RotateDetail) (app : App) :
  supplied !! "rotate" = Some callback →
  Interactor.rotate (Interactor.constructor supplied) detail app
  = Normal (callback [(Interactor.distanceFromLast detail * PI / 180)%float] app).
Proof.
  intros Hregistered. unfold Interactor.rotate, Interactor.call_handler.
  rewrite handlers_rotate. unfold Interactor.Handler in *. by rewrite Hregistered.
Qed.
End InteractorFacts.

Lemma rotate_delivers_radians_witness :
  Interactor.rotate (Interactor.constructor {[ "rotate" := logCall ]})
    {| Interactor.distanceFromLast := 90 |} []
  = Normal [[0x1.921fb54442d18p+0%float]]
  ∧ Interactor.rotate (Interactor.constructor {[ "rotate" := logCall ]})
      {| Interactor.distanceFromLast := -90 |} []
    = Normal [[(-0x1.921fb54442d18p+0)%float]].
Proof.
  split.
  - exact (rotate_delivers_radians {[ "rotate" := logCall ]} logCall
             {| Interactor.distanceFromLast := 90 |} [] eq_refl).
  - exact (rotate_delivers_radians {[ "rotate" := logCall ]} logCall
             {| Interactor.distanceFromLast := -90 |} [] eq_refl).
Defined.

(** A quarter turn is half of [Math.PI], and a half turn is [Math.PI]. *)
Lemma quarter_turn_radians :
  (90 * PI / 180 = PI / 2)%float ∧ (180 * PI / 180 = PI)%float
  ∧ (-90 * PI / 180 = - (PI / 2))%float.
Proof. by vm_compute. Qed.

Section RotaterFacts.
Context {Rotate Inputs ZState Element RotateData : Type}.
Variable numActiveInputs : ZState → Z.
Implicit Types (new_Rotate : @Interactor.RotateGesture Rotate Inputs ZState Element RotateData).

(** C3.  The Rotate recognizer the Interactor binds returns [null], and
    leaves the recognizer untouched, whenever the number of active inputs is
    not exactly 2; with exactly 2 it is the recognizer's original [move]. *)
Theorem rotater_move_exactly_two new_Rotate this inputs state element :
  (numActiveInputs state ≠ 2 →
   Interactor.move (Interactor.rotater numActiveInputs new_Rotate)
     this inputs state element = (None, this))
  ∧ (numActiveInputs state = 2 →
     Interactor.move (Interactor.rotater numActiveInputs new_Rotate)
       this inputs state element
     = Interactor.move new_Rotate this inputs state element).
Proof.
  unfold Interactor.rotater, Interactor.refineRotateMove. simpl.
  split; intros Hn.
  - by replace (_ =? _) with false by (symmetry; by apply Z.eqb_neq).
  - by rewrite Hn.
Qed.
End RotaterFacts.

Lemma rotater_move_exactly_two_witness :
  Interactor.move (Interactor.rotater activeCount laxRotate) 0%nat () 3 () = (None, 0%nat)
  ∧ Interactor.move laxRotate 0%nat () 3 () = (Some 90%float, 1%nat)
  ∧ Interactor.move (Interactor.rotater activeCount laxRotate) 0%nat () 2 ()
    = (Some 90%float, 1%nat).
Proof.
  destruct (rotater_move_exactly_two activeCount laxRotate 0%nat () 3 ()) as [Hthree _].
  destruct (rotater_move_exactly_two activeCount laxRotate 0%nat () 2 ()) as [_ Htwo].
  split; [|split].
  - apply Hthree. discriminate.
  - reflexivity.
  - rewrite Htwo; reflexivity.
Defined.

(** ** More of src/shared/util.js: [findLast] *)

Section FindLastFacts.
Context {T This : Type}.
Implicit Types (array : list T) (callback : @Util.Callback T This) (thisArg : This).

(** Where the loop stops: at the greatest accepted index below [remaining],
    or at [-1] when there is none. *)
Lemma findLastLoop_spec array callback thisArg (remaining : nat) :
  (Util.findLastLoop array callback thisArg remaining = -1
   ∧ ∀ j : nat, (j < remaining)%nat →
       callback thisArg (array !! j) (Z.of_nat j) array = false)
  ∨ ∃ i : nat,
      Util.findLastLoop array callback thisArg remaining = Z.of_nat i
      ∧ (i < remaining)%nat
      ∧ callback thisArg (array !! i) (Z.of_nat i) array = true
      ∧ ∀ j : nat, (i < j < remaining)%nat →
          callback thisArg (array !! j) (Z.of_nat j) array = false.
Proof.
  induction remaining as [|n IH]; simpl.
  - left. split; [done|]. intros j Hj. lia.
  - destruct (callback thisArg (array !! n) (Z.of_nat n) array) eqn:Hn.
    + right. exists n. repeat split; [lia|done|]. intros j Hj. lia.
    + destruct IH as [[Hnone Hall]|(i & Hi & Hlt & Hacc & Hlater)].
      * left. split; [done|]. intros j Hj.
        destruct (decide (j = n)) as [->|Hne]; [done|]. apply Hall. lia.
      * right. exists i. repeat split; [done|lia|done|]. intros j Hj.
        destruct (decide (j = n)) as [->|Hne]; [done|]. apply Hlater. lia.
Qed.

(** The index the search starts from. *)
Lemma findLast_unfold array callback fromIndex thisArg :
  let start := default (Z.of_nat (length array) - 1) fromIndex in
  Util.findLast array callback fromIndex thisArg
  = if start <? 0 then Util.Null
    else
      let stop := Util.findLastLoop array callback thisArg (Z.to_nat (start + 1)) in
      if 0 <=? stop
      then match array !! Z.to_nat stop with
           | Some v => Util.Value v
           | None => Util.Undefined
           end
      else Util.Null.
Proof.
  unfold Util.findLast. simpl.
  destruct (_ <? 0) eqn:Hneg; [|done].
  apply Z.ltb_lt in Hneg.
  by replace (0 <=? _) with false by (symmetry; apply Z.leb_gt; lia).
Qed.


End FindLastFacts.

Section FindLastValueFacts.
Context {V This : Type}.
Variables (undefined null : V).
Implicit Types (array : list V) (callback : @Util.Callback V This) (thisArg : This).

(** The value returned, by where the loop stops. *)
Lemma findLastValue_cases array callback fromIndex thisArg :
  let start := default (Z.of_nat (length array) - 1) fromIndex in
  (Util.findLastValue undefined null array callback fromIndex thisArg = null
   ∧ ∀ j : nat, Z.of_nat j ≤ start →
       callback thisArg (array !! j) (Z.of_nat j) array = false)
  ∨ ∃ i : nat,
      Z.of_nat i ≤ start
      ∧ callback thisArg (array !! i) (Z.of_nat i) array = true
      ∧ Util.findLastValue undefined null array callback fromIndex thisArg
        = default undefined (array !! i).
Proof.
  unfold Util.findLastValue. rewrite findLast_unfold. simpl.
  set (start := default _ fromIndex) in *.
  destruct (start <? 0) eqn:Hstart.
  - apply Z.ltb_lt in Hstart. left. split; [done|]. intros j Hj. lia.
  - apply Z.ltb_ge in Hstart.
    destruct (findLastLoop_spec array callback thisArg (Z.to_nat (start + 1)))
      as [[-> Hnone]|(k & -> & Hk & Hacck & _)].
    + left. split; [done|]. intros j Hj. apply Hnone. lia.
    + right. exists k.
      replace (0 <=? Z.of_nat k) with true by (symmetry; apply Z.leb_le; lia).
      rewrite Nat2Z.id. repeat split; [lia|done|].
      by destruct (array !! k).
Qed.


End FindLastValueFacts.

(** ** More of src/shared/util.js: [getInitialValues] *)

Section GetInitialValuesFacts.
Context {V : Type}.
Implicit Types (defaults data : gmap string V).

Lemma getInitialValues_is_Some defaults data (k : string) :
  is_Some (Util.getInitialValues defaults data !! k) ↔ is_Some (defaults !! k).
Proof.
  rewrite getInitialValues_lookup. by rewrite fmap_is_Some.
Qed.



End GetInitialValuesFacts.

(** ** More of src/shared/util.js: removal by id *)

Section ByIdMore.
Context {T Id : Type} `{EqDecision Id}.
Variable id : T → Id.
Implicit Types (array : list T) (item o : T).

(** X7.  [removeById] returns [true] exactly when some element has the
    item's id, and the array is then one element shorter; otherwise its
    length is unchanged. *)
Theorem removeById_result array item :
  ((Util.removeById id array item).1 = true ↔ ∃ o, o ∈ array ∧ id o = id item)
  ∧ length array
    = (length (Util.removeById id array item).2
       + (if (Util.removeById id array item).1 then 1 else 0))%nat.
Proof.
  destruct (first_of_id id array item)
    as [Habsent|(before & o & after & -> & Ho & Hbefore)].
  - rewrite removeById_absent by done. simpl. split; [|lia].
    split; [done|]. intros (o & Hin & Ho).
    rewrite Forall_forall in Habsent. by destruct (Habsent o Hin).
  - rewrite removeById_first by done. simpl. split.
    + split; [|done]. intros _. exists o. split; [|done].
      apply elem_of_app. right. by left.
    + rewrite !length_app. simpl. lia.
Qed.

(** X8.  [removeById] never removes, adds or reorders an element of
    another id: what is left is a sublist of the array, with the same
    elements of other ids in the same order. *)
Theorem removeById_frame array item :
  (Util.removeById id array item).2 `sublist_of` array
  ∧ filter (λ o, id o ≠ id item) (Util.removeById id array item).2
    = filter (λ o, id o ≠ id item) array.
Proof.
  destruct (first_of_id id array item)
    as [Habsent|(before & o & after & -> & Ho & Hbefore)].
  - by rewrite removeById_absent.
  - rewrite removeById_first by done. simpl. split.
    + apply sublist_app; [done|]. by apply sublist_cons.
    + rewrite !filter_app, filter_cons_False; [done|]. by intros Hne.
Qed.

(** X9.  On an array whose ids are pairwise distinct, the ids stay
    distinct after [removeById] and no element with the item's id is
    left. *)
Theorem removeById_unique_ids array item :
  NoDup (id <$> array) →
  NoDup (id <$> (Util.removeById id array item).2)
  ∧ (id item ∉ id <$> (Util.removeById id array item).2).
Proof.
  intros Hnodup.
  destruct (first_of_id id array item)
    as [Habsent|(before & o & after & -> & Ho & Hbefore)].
  - rewrite removeById_absent by done. simpl. split; [done|].
    intros (o & Ho & Hin)%list_elem_of_fmap.
    rewrite Forall_forall in Habsent. by destruct (Habsent o Hin).
  - rewrite removeById_first by done. simpl.
    rewrite fmap_app, fmap_cons in Hnodup.
    apply NoDup_app in Hnodup as (Hnb & Hdisjoint & Hna).
    apply NoDup_cons in Hna as [Hfresh Hna].
    rewrite fmap_app. split.
    + apply NoDup_app. repeat split; [done| |done].
      intros i Hi Hi'. apply (Hdisjoint i Hi). by right.
    + rewrite <- Ho. intros [Hin|Hin]%elem_of_app; [|done].
      apply (Hdisjoint (id o) Hin). by left.
Qed.

(** X10.  [safeRemoveById] throws, and leaves the array as it is, when the
    item is not an instance of the class, whatever its id and whatever the
    array.  On an instance and an array of pairwise distinct ids it reports
    whether the id was there, leaves no element of that id, and a second
    call reports [false] and changes nothing. *)
Theorem safeRemoveById_guarded array item (class_fn : Util.ClassFn) :
  (Util.hasInstance class_fn item = false →
   Util.safeRemoveById id array item class_fn
   = (Throw ("Invalid " +:+ Util.toString class_fn +:+ " received."), array))
  ∧ (Util.hasInstance class_fn item = true →
     NoDup (id <$> array) →
     (Util.safeRemoveById id array item class_fn).1
     = Normal (bool_decide (id item ∈ (id <$> array)))
     ∧ (id item ∉ id <$> (Util.safeRemoveById id array item class_fn).2)
     ∧ Util.safeRemoveById id (Util.safeRemoveById id array item class_fn).2
         item class_fn
       = (Normal false, (Util.safeRemoveById id array item class_fn).2)).
Proof.
  unfold Util.safeRemoveById. split; intros ->; simpl; [done|].
  intros Hnodup.
  destruct (first_of_id id array item)
    as [Habsent|(before & o & after & -> & Ho & Hbefore)].
  - rewrite !removeById_absent by done. simpl.
    rewrite ?removeById_absent by done.
    assert (id item ∉ id <$> array) as Hnotin.
    { intros (o & Ho & Hin)%list_elem_of_fmap.
      rewrite Forall_forall in Habsent. by destruct (Habsent o Hin). }
    by rewrite bool_decide_eq_false_2.
  - rewrite !removeById_first by done. simpl.
    rewrite fmap_app, fmap_cons in Hnodup.
    apply NoDup_app in Hnodup as (Hnb & Hdisjoint & Hna).
    apply NoDup_cons in Hna as [Hfresh Hna].
    assert (Forall (λ a, id a ≠ id item) after) as Hafter.
    { apply Forall_forall. intros a Ha Heq. apply Hfresh.
      rewrite Ho, <- Heq. by apply list_elem_of_fmap_2. }
    rewrite removeById_absent by (by apply Forall_app).
    repeat split.
    + rewrite bool_decide_eq_true_2; [done|].
      rewrite <- Ho, fmap_app, fmap_cons. apply elem_of_app. right. by left.
    + rewrite fmap_app. intros [Hin|Hin]%elem_of_app.
      * apply (Hdisjoint (id item) Hin). rewrite <- Ho. by left.
      * apply Hfresh. by rewrite Ho.
Qed.
End ByIdMore.

(** ** More of src/shared/util.js: immutable properties *)

Section PropertyFacts.
Context {V F : Type} `{EqDecision V}.
Variable undefined : V.
Implicit Types (obj : JSObject.Obj V F) (prop : string) (val : V)
  (current : JSObject.Property V F) (desc : JSObject.Descriptor V).

(** The descriptor [makeOwnPropertyImmutable] passes turns a configurable
    property into a data property that is neither configurable nor
    writable, and keeps its value (if it has one) and its enumerability. *)
Lemma makeOwnPropertyImmutable_cases obj prop :
  match JSObject.properties obj !! prop with
  | Some current =>
      if JSObject.configurable current
      then Util.makeOwnPropertyImmutable undefined obj prop
           = Normal
               {| JSObject.properties :=
                    <[prop := JSObject.Data
                                (match current with
                                 | JSObject.Data v _ _ _ => v
                                 | JSObject.Accessor _ _ _ _ => undefined
                                 end)
                                false (JSObject.enumerable current) false]>
                      (JSObject.properties obj);
                  JSObject.extensible := JSObject.extensible obj |}
      else Util.makeOwnPropertyImmutable undefined obj prop = Normal obj
  | None => Util.makeOwnPropertyImmutable undefined obj prop = Normal obj
  end.
Proof.
  unfold Util.makeOwnPropertyImmutable, JSObject.getOwnPropertyDescriptor,
    JSObject.defineProperty.
  destruct (JSObject.properties obj !! prop) as [current|] eqn:Hprop; [|done].
  destruct current as [v w e c|g s e c]; destruct c; simpl; try done.
  all: by rewrite Hprop.
Qed.

(** A property that is a data property, neither configurable nor
    writable, survives every accepted [Object.defineProperty] unchanged. *)
Lemma defineProperty_locked obj prop val (e : bool) desc obj' :
  JSObject.properties obj !! prop = Some (JSObject.Data val false e false) →
  JSObject.defineProperty undefined obj prop desc = Normal obj' →
  obj' = obj.
Proof.
  intros Hprop. unfold JSObject.defineProperty. rewrite Hprop.
  unfold JSObject.validateAndApply, JSObject.keepsFrozenAttributes,
    JSObject.applyFields. simpl.
  destruct desc as [[v|] [[|]|] [e'|] [[|]|]]; simpl;
    repeat (case_bool_decide; simpl); try done;
    intros [= <-]; destruct obj as [props ext]; simpl in *; f_equal;
    apply insert_id; rewrite Hprop; f_equal;
    destruct_or?; by simplify_eq.
Qed.

(** What a successful [defineOwnImmutableEnumerableProperty] leaves. *)
Lemma defineOwnImmutableEnumerableProperty_result obj prop val obj' :
  Util.defineOwnImmutableEnumerableProperty undefined obj prop val = Normal obj' →
  obj' = {| JSObject.properties :=
              <[prop := JSObject.Data val false true false]> (JSObject.properties obj);
            JSObject.extensible := JSObject.extensible obj |}.
Proof.
  unfold Util.defineOwnImmutableEnumerableProperty, JSObject.defineProperty,
    JSObject.validateAndApply, JSObject.keepsFrozenAttributes,
    JSObject.applyFields.
  destruct (JSObject.properties obj !! prop) as [[v w e c|g s e c]|]; simpl.
  - destruct c, w, e; simpl; repeat (case_bool_decide; simpl);
      try done; by intros [= <-].
  - destruct c, e; simpl; repeat (case_bool_decide; simpl);
      try done; by intros [= <-].
  - destruct (JSObject.extensible obj); [|done]. by intros [= <-].
Qed.

(** X11.  [makeOwnPropertyImmutable] never throws, and touches nothing but
    the named property: the object keeps its extensibility, its keys and
    all its other properties. *)
Theorem makeOwnPropertyImmutable_safe obj prop :
  ∃ obj',
    Util.makeOwnPropertyImmutable undefined obj prop = Normal obj'
    ∧ JSObject.extensible obj' = JSObject.extensible obj
    ∧ dom (JSObject.properties obj') = dom (JSObject.properties obj)
    ∧ ∀ other, other ≠ prop →
        JSObject.properties obj' !! other = JSObject.properties obj !! other.
Proof.
  pose proof (makeOwnPropertyImmutable_cases obj prop) as Hcases.
  destruct (JSObject.properties obj !! prop) as [current|] eqn:Hprop;
    [destruct (JSObject.configurable current)|]; eexists; (split; [exact Hcases|]);
    simpl; try done.
  repeat split.
  - apply dom_insert_lookup_L. by rewrite Hprop.
  - intros other Hother. by rewrite lookup_insert_ne.
Qed.

(** X12.  On a configurable own property, [makeOwnPropertyImmutable] leaves
    a property that the test suite's [toHaveImmutableProperty] accepts: a
    data property, not configurable and not writable, as enumerable as
    before, with the value it had, or [undefined] if it was an accessor. *)
Theorem makeOwnPropertyImmutable_configurable obj prop current :
  JSObject.getOwnPropertyDescriptor obj prop = Some current →
  JSObject.configurable current = true →
  ∃ obj',
    Util.makeOwnPropertyImmutable undefined obj prop = Normal obj'
    ∧ JSObject.getOwnPropertyDescriptor obj' prop
      = Some (JSObject.Data
                (match current with
                 | JSObject.Data v _ _ _ => v
                 | JSObject.Accessor _ _ _ _ => undefined
                 end)
                false (JSObject.enumerable current) false)
    ∧ Util.toHaveImmutableProperty obj' prop = true.
Proof.
  unfold JSObject.getOwnPropertyDescriptor. intros Hprop Hconfigurable.
  pose proof (makeOwnPropertyImmutable_cases obj prop) as Hcases.
  rewrite Hprop, Hconfigurable in Hcases.
  eexists. split; [exact Hcases|].
  unfold Util.toHaveImmutableProperty, JSObject.getOwnPropertyDescriptor. simpl.
  by rewrite lookup_insert_eq.
Qed.

(** X13.  [makeOwnPropertyImmutable] is idempotent: a second call on the
    same property returns the object unchanged. *)
Theorem makeOwnPropertyImmutable_idempotent obj prop :
  ∃ obj',
    Util.makeOwnPropertyImmutable undefined obj prop = Normal obj'
    ∧ Util.makeOwnPropertyImmutable undefined obj' prop = Normal obj'.
Proof.
  pose proof (makeOwnPropertyImmutable_cases obj prop) as Hcases.
  destruct (JSObject.properties obj !! prop) as [current|] eqn:Hprop;
    [destruct (JSObject.configurable current) eqn:Hc|];
    eexists; (split; [exact Hcases|]).
  - pose proof (makeOwnPropertyImmutable_cases
        {| JSObject.properties :=
             <[prop := JSObject.Data
                         (match current with
                          | JSObject.Data v _ _ _ => v
                          | JSObject.Accessor _ _ _ _ => undefined
                          end)
                         false (JSObject.enumerable current) false]>
               (JSObject.properties obj);
           JSObject.extensible := JSObject.extensible obj |} prop) as Hagain.
    simpl in Hagain. by rewrite lookup_insert_eq in Hagain.
  - pose proof (makeOwnPropertyImmutable_cases obj prop) as Hagain.
    by rewrite Hprop, Hc in Hagain.
  - pose proof (makeOwnPropertyImmutable_cases obj prop) as Hagain.
    by rewrite Hprop in Hagain.
Qed.

(** X14.  On an extensible object without the property, or on a property
    that is configurable, [defineOwnImmutableEnumerableProperty] succeeds:
    the property becomes an enumerable data property with the given value,
    not configurable and not writable, and nothing else changes. *)
Theorem defineOwnImmutableEnumerableProperty_defines obj prop val :
  (JSObject.properties obj !! prop = None ∧ JSObject.extensible obj = true)
  ∨ (∃ current, JSObject.properties obj !! prop = Some current
                ∧ JSObject.configurable current = true) →
  Util.defineOwnImmutableEnumerableProperty undefined obj prop val
  = Normal {| JSObject.properties :=
                <[prop := JSObject.Data val false true false]>
                  (JSObject.properties obj);
              JSObject.extensible := JSObject.extensible obj |}.
Proof.
  unfold Util.defineOwnImmutableEnumerableProperty, JSObject.defineProperty,
    JSObject.validateAndApply.
  intros [[-> ->]|(current & -> & Hc)]; [done|].
  by destruct current; simpl in *; subst.
Qed.

(** X15.  Once [defineOwnImmutableEnumerableProperty] has succeeded the
    property is fixed: every later [Object.defineProperty] on it either
    throws or changes nothing, defining it again with another value throws,
    and [makeOwnPropertyImmutable] has nothing left to do. *)
Theorem defineOwnImmutableEnumerableProperty_locks obj prop val obj' :
  Util.defineOwnImmutableEnumerableProperty undefined obj prop val = Normal obj' →
  Util.toHaveImmutableProperty obj' prop = true
  ∧ (∀ desc obj'',
       JSObject.defineProperty undefined obj' prop desc = Normal obj'' → obj'' = obj')
  ∧ (∀ val', val' ≠ val →
       ∃ msg, Util.defineOwnImmutableEnumerableProperty undefined obj' prop val'
              = Throw msg)
  ∧ Util.makeOwnPropertyImmutable undefined obj' prop = Normal obj'.
Proof.
  intros ->%defineOwnImmutableEnumerableProperty_result.
  set (obj' := {| JSObject.properties := _ |}).
  assert (JSObject.properties obj' !! prop
          = Some (JSObject.Data val false true false)) as Hprop
    by apply lookup_insert_eq.
  repeat split.
  - unfold Util.toHaveImmutableProperty, JSObject.getOwnPropertyDescriptor.
    by rewrite Hprop.
  - intros desc obj''. by apply defineProperty_locked with val true.
  - intros val' Hval'.
    unfold Util.defineOwnImmutableEnumerableProperty, JSObject.defineProperty,
      JSObject.validateAndApply, JSObject.keepsFrozenAttributes.
    rewrite Hprop. simpl. repeat (case_bool_decide; simpl); eauto.
    destruct_or?; by simplify_eq.
  - pose proof (makeOwnPropertyImmutable_cases obj' prop) as Hcases.
    by rewrite Hprop in Hcases.
Qed.
End PropertyFacts.

(** ** More of the Interactor: handlers and the other callbacks *)

(** The two kinds of doubles that are neither above nor below zero. *)
Lemma neither_sign_inv (v : float) :
  (0 <? v)%float = false → (v <? 0)%float = false →
  Prim2SF v = S754_nan ∨ ∃ sign, Prim2SF v = S754_zero sign.
Proof.
  rewrite !ltb_spec. change (Prim2SF 0) with (S754_zero false).
  destruct (Prim2SF v) as [sign|sign| |sign m e]; eauto;
    by destruct sign.
Qed.

(** Scaling a zero or [NaN] by a wheel factor and negating it gives a zero
    or [NaN]. *)
Lemma negated_step_zero_or_nan (v factor : float) (sign : bool) (m : positive) (e : Z) :
  Prim2SF factor = S754_finite sign m e →
  Prim2SF v = S754_nan ∨ (∃ sign', Prim2SF v = S754_zero sign') →
  PrimFloat.is_zero (- (v * factor)) || PrimFloat.is_nan (- (v * factor)) = true.
Proof.
  intros Hfactor Hv.
  unfold PrimFloat.is_zero, PrimFloat.is_nan.
  rewrite !FloatAxioms.eqb_spec, !opp_spec, !mul_spec, Hfactor.
  change (Prim2SF 0) with (S754_zero false).
  destruct Hv as [->|[sign' ->]]; [done|]. by destruct sign', sign.
Qed.

Section InteractorMore.
Context {App : Type}.
Implicit Types (supplied : gmap string (Interactor.Handler App)) (app : App).

(** Calling one of the four handlers of a constructed Interactor calls
    what was supplied under that name, or [NOP]. *)
Lemma call_handler_constructed supplied (name : string) (args : list float) app :
  name ∈ ["pan"; "rotate"; "tap"; "zoom"] →
  Interactor.call_handler (Interactor.constructor supplied) name args app
  = Normal (default Util.NOP (supplied !! name) args app).
Proof.
  intros Hname. unfold Interactor.call_handler, Interactor.constructor. simpl.
  rewrite getInitialValues_lookup. unfold Interactor.HANDLERS.
  repeat (apply elem_of_cons in Hname as [->|Hname]; [done|]).
  by apply elem_of_nil in Hname.
Qed.

(** X16.  Whatever handlers are supplied, a constructed Interactor has a
    handler under exactly the four names [pan], [rotate], [tap] and
    [zoom]. *)
Theorem handlers_keys supplied :
  dom (Interactor.handlers (Interactor.constructor supplied))
  = list_to_set ["pan"; "rotate"; "tap"; "zoom"].
Proof.
  transitivity (dom (Interactor.HANDLERS (App := App))); [|by vm_compute].
  apply set_eq. intros name. rewrite !elem_of_dom.
  unfold Interactor.constructor. simpl.
  by rewrite getInitialValues_lookup, fmap_is_Some.
Qed.

(** X18.  [pan] hands the registered handler the position of the first
    event and the change of the first data, and nothing of the later ones;
    without a first event or without first data it throws and calls no
    handler. *)
Theorem pan_first_event supplied (handler : Interactor.Handler App)
    event events first rest app :
  supplied !! "pan" = Some handler →
  Interactor.pan (Interactor.constructor supplied)
    {| Interactor.pan_events := event :: events;
       Interactor.data := first :: rest |} app
  = Normal (handler [Interactor.clientX event; Interactor.clientY event;
                     Gestures.x (Interactor.change first);
                     Gestures.y (Interactor.change first)] app)
  ∧ (∃ msg, Interactor.pan (Interactor.constructor supplied)
              {| Interactor.pan_events := [];
                 Interactor.data := first :: rest |} app = Throw msg)
  ∧ (∃ msg, Interactor.pan (Interactor.constructor supplied)
              {| Interactor.pan_events := event :: events;
                 Interactor.data := [] |} app = Throw msg).
Proof.
  intros Hregistered. unfold Interactor.pan. simpl.
  rewrite call_handler_constructed by set_solver.
  unfold Interactor.Handler in *. rewrite Hregistered. eauto.
Qed.

(** X20.  [wheel] prevents the default action and zooms by a step that
    depends only on the direction of the wheel and on the control key: the
    step is 0.1 with the control key and 0.02 without, negative when
    [deltaY] is positive, positive when it is negative, and a zero or [NaN]
    when [deltaY] is a zero or [NaN]. *)
Theorem wheel_step supplied (handler : Interactor.Handler App)
    (event : Interactor.WheelEvent) app :
  supplied !! "zoom" = Some handler →
  let factor :=
    if Interactor.ctrlKey event then 0x1.999999999999ap-4%float
    else 0x1.47ae147ae147bp-6%float in
  ∃ step,
    Interactor.wheel (Interactor.constructor supplied) event app
    = (Interactor.preventDefault event, Normal (handler [step] app))
    ∧ ((0 <? Interactor.deltaY event)%float = true → step = (- factor)%float)
    ∧ ((Interactor.deltaY event <? 0)%float = true → step = factor)
    ∧ ((0 <? Interactor.deltaY event)%float = false →
       (Interactor.deltaY event <? 0)%float = false →
       PrimFloat.is_zero step || PrimFloat.is_nan step = true).
Proof.
  intros Hregistered factor. unfold Interactor.wheel. simpl.
  rewrite call_handler_constructed by set_solver.
  unfold Interactor.Handler in *. rewrite Hregistered. simpl.
  eexists. split; [done|]. fold factor. unfold Interactor.Math_sign.
  repeat split.
  - intros ->. subst factor. by destruct (Interactor.ctrlKey event).
  - intros Hneg. destruct (0 <? _)%float eqn:Hpos.
    + exfalso. revert Hpos Hneg. rewrite !ltb_spec.
      change (Prim2SF 0) with (S754_zero false).
      destruct (Prim2SF _) as [sign|sign| |sign m e]; try done; by destruct sign.
    + rewrite Hneg. subst factor. by destruct (Interactor.ctrlKey event).
  - intros Hpos Hneg. rewrite Hpos, Hneg.
    pose proof (neither_sign_inv _ Hpos Hneg) as Hzero.
    subst factor. destruct (Interactor.ctrlKey event).
    + by apply (negated_step_zero_or_nan _ _ false 7205759403792794 (-56)).
    + by apply (negated_step_zero_or_nan _ _ false 5764607523034235 (-58)).
Qed.
End InteractorMore.

(** *** Handlers objects whose properties need not be functions *)

Section UntypedFacts.
Context {App : Type}.
Implicit Types (supplied : gmap string (Interactor.Untyped.Entry App)) (app : App).

(** Calling one of the four handlers of a constructed Interactor: the
    supplied own property if there is one, function or not, and [NOP]
    otherwise. *)
Lemma untyped_call_handler supplied (name : string) (args : list float) app :
  name ∈ ["pan"; "rotate"; "tap"; "zoom"] →
  Interactor.Untyped.call_handler (Interactor.Untyped.constructor supplied)
    name args app
  = match supplied !! name with
    | Some (Interactor.Untyped.Function handler) => Normal (handler args app)
    | Some Interactor.Untyped.NotFunction =>
        Throw ("TypeError: this.handlers." +:+ name +:+ " is not a function")
    | None => Normal app
    end.
Proof.
  intros Hname.
  unfold Interactor.Untyped.call_handler, Interactor.Untyped.constructor. simpl.
  rewrite getInitialValues_lookup. unfold Interactor.Untyped.HANDLERS.
  repeat (apply elem_of_cons in Hname as [->|Hname];
          [by destruct (supplied !! _) as [[]|]|]).
  by apply elem_of_nil in Hname.
Qed.

(** On handlers that are all functions the class is the one above. *)
Lemma untyped_agrees (handlers : gmap string (Interactor.Handler App))
    (name : string) (args : list float) app :
  name ∈ ["pan"; "rotate"; "tap"; "zoom"] →
  Interactor.Untyped.call_handler
    (Interactor.Untyped.constructor (Interactor.Untyped.Function <$> handlers))
    name args app
  = Interactor.call_handler (Interactor.constructor handlers) name args app.
Proof.
  intros Hname.
  rewrite untyped_call_handler, call_handler_constructed by done.
  rewrite lookup_fmap. unfold Interactor.Handler in *.
  by destruct (handlers !! name).
Qed.

Lemma untyped_completes_iff supplied (name : string) (args : list float) app :
  name ∈ ["pan"; "rotate"; "tap"; "zoom"] →
  (∃ app', Interactor.Untyped.call_handler (Interactor.Untyped.constructor supplied)
             name args app = Normal app')
  ↔ supplied !! name ≠ Some Interactor.Untyped.NotFunction.
Proof.
  intros Hname. rewrite untyped_call_handler by done.
  destruct (supplied !! name) as [[handler|]|]; split; try done; eauto.
  by intros [app' [=]].
Qed.


End UntypedFacts.

(** ** More of the Pinch recognizer: runs of hook calls *)

(** Brings the hook of a phase to the equation of [move] or [refresh]. *)
Ltac phase_equation :=
  unfold Pinch.hook, Pinch.start, Pinch.end_, Pinch.cancel, Pinch.bind, Pinch.ret;
  rewrite ?refresh_unfold, ?move_unfold; simpl.

Section PinchRuns.
Context {num : Type} `{Number num}.
Implicit Types (g : Pinch.Pinch num) (s : State num) (p : Phase)
  (events : list (Phase * State num)).

(** What any hook leaves of the gesture. *)
Lemma hook_memory p g s :
  Pinch.this (Pinch.hook p {| Pinch.this := g; Pinch.state := s |}).2
  = if Pinch.minInputs g <=? Z.of_nat (length (active s))
    then Pinch.setPrevious g (Pinch.measured s)
    else g.
Proof.
  destruct p; phase_equation;
    rewrite ?Z.ltb_antisym; by destruct (_ <=? _).
Qed.

(** What a hook returns.  *)
Lemma hook_result p g s :
  (Pinch.hook p {| Pinch.this := g; Pinch.state := s |}).1
  = match p with
    | PhaseMove =>
        if Pinch.minInputs g <=? Z.of_nat (length (active s))
        then Some {| Pinch.distance := Pinch.measured s;
                     Pinch.midpoint := centroid s;
                     Pinch.change := div (Pinch.measured s) (Pinch.previous g) |}
        else None
    | _ => None
    end.
Proof.
  destruct p; phase_equation; try done.
  rewrite Z.ltb_antisym. by destruct (_ <=? _).
Qed.

Lemma run_cons g p s events :
  Pinch.run g ((p, s) :: events)
  = ((Pinch.hook p {| Pinch.this := g; Pinch.state := s |}).1
       :: (Pinch.run
             (Pinch.this (Pinch.hook p {| Pinch.this := g; Pinch.state := s |}).2)
             events).1,
     (Pinch.run
        (Pinch.this (Pinch.hook p {| Pinch.this := g; Pinch.state := s |}).2)
        events).2).
Proof.
  simpl. destruct (Pinch.hook p _) as [r h]. simpl.
  by destruct (Pinch.run (Pinch.this h) events).
Qed.

Lemma run_app g events events' :
  (Pinch.run g (events ++ events')).2
  = (Pinch.run (Pinch.run g events).2 events').2.
Proof.
  revert g. induction events as [|[p s] rest IH]; intros g; [done|].
  rewrite <- app_comm_cons, !run_cons. simpl. apply IH.
Qed.

(** A run never changes [minInputs] or [type]. *)
Lemma run_keeps_configuration g events :
  Pinch.minInputs (Pinch.run g events).2 = Pinch.minInputs g
  ∧ Pinch.type (Pinch.run g events).2 = Pinch.type g.
Proof.
  revert g. induction events as [|[p s] rest IH]; intros g; [done|].
  rewrite run_cons. simpl. destruct (IH (Pinch.this (Pinch.hook p
    {| Pinch.this := g; Pinch.state := s |}).2)) as [-> ->].
  rewrite hook_memory. by destruct (_ <=? _).
Qed.

(** Events on states with too few contacts leave the gesture alone. *)
Lemma run_insufficient_memory g events :
  Forall (λ e, Z.of_nat (length (active e.2)) < Pinch.minInputs g) events →
  (Pinch.run g events).2 = g.
Proof.
  induction 1 as [|[p s] rest Hfew _ IH]; [done|].
  rewrite run_cons. simpl in *. rewrite hook_memory.
  by replace (_ <=? _) with false by (symmetry; apply Z.leb_gt; lia).
Qed.

(** X21.  A [move] updates the memory of the gesture exactly as a refresh
    ([start], [end] or [cancel]) on the same state does: the four hooks
    differ only in what they return. *)
Theorem move_memory_as_refresh p g s :
  (Pinch.hook p {| Pinch.this := g; Pinch.state := s |}).2
  = (Pinch.move {| Pinch.this := g; Pinch.state := s |}).2.
Proof.
  rewrite move_unfold.
  destruct p; phase_equation; rewrite ?Z.ltb_antisym; by destruct (_ <=? _).
Qed.

(** X22.  After any run of hook calls, [previous] is the average distance
    measured on the last state that had at least [minInputs] contacts,
    whatever the phases and whatever came before; [minInputs] and [type]
    are those of the start. *)
Theorem run_remembers_last_sufficient g events before p s after :
  events = before ++ (p, s) :: after →
  Pinch.minInputs g ≤ Z.of_nat (length (active s)) →
  Forall (λ e, Z.of_nat (length (active e.2)) < Pinch.minInputs g) after →
  Pinch.run g events
  = ((Pinch.run g events).1,
     {| Pinch.type := Pinch.type g;
        Pinch.minInputs := Pinch.minInputs g;
        Pinch.previous := averageDistanceTo (centroid s) (activePoints s) |}).
Proof.
  intros -> Henough Hafter.
  rewrite (surjective_pairing (Pinch.run g _)) at 1. f_equal.
  rewrite run_app, run_cons. simpl.
  destruct (run_keeps_configuration g before) as [Hmin Htype].
  rewrite hook_memory, Hmin.
  replace (_ <=? _) with true by (symmetry; apply Z.leb_le; lia).
  rewrite run_insufficient_memory by (simpl; by rewrite Hmin).
  unfold Pinch.setPrevious. by rewrite Hmin, Htype.
Qed.

(** X23.  In a run, a result is emitted at exactly the [move] events whose
    state has at least [minInputs] contacts, one answer per event. *)
Theorem run_emits_on_sufficient_moves g events :
  Forall2 (λ e r, is_Some r
             ↔ e.1 = PhaseMove
               ∧ Pinch.minInputs g ≤ Z.of_nat (length (active e.2)))
    events (Pinch.run g events).1.
Proof.
  revert g. induction events as [|[p s] rest IH]; intros g; [by constructor|].
  rewrite run_cons. simpl. constructor.
  - rewrite hook_result. simpl.
    destruct p; try (split; [by intros [? [=]]|by intros [[=] _]]).
    destruct (_ <=? _) eqn:Hle.
    + apply Z.leb_le in Hle. split; [done|by eexists].
    + apply Z.leb_gt in Hle. split; [by intros [? [=]]|]. intros [_ Hge]. lia.
  - specialize (IH (Pinch.this (Pinch.hook p
      {| Pinch.this := g; Pinch.state := s |}).2)).
    rewrite hook_memory in *.
    by destruct (_ <=? _).
Qed.

(** X24.  A gesture constructed with [minInputs] left out or not negative
    requires at least one contact, keeps a positive [minInputs] as given,
    and on a state without active contacts [move] returns [null] and
    leaves it untouched. *)
Theorem constructed_needs_contacts (options : Pinch.Options) s :
  from_option (λ n, 0 ≤ n) True (Pinch.options_minInputs options) →
  active s = [] →
  ∃ g,
    Pinch.constructor options = Normal g
    ∧ 1 ≤ Pinch.minInputs g
    ∧ (∀ n, Pinch.options_minInputs options = Some n → 0 < n → Pinch.minInputs g = n)
    ∧ Pinch.move {| Pinch.this := g; Pinch.state := s |}
      = (None, {| Pinch.this := g; Pinch.state := s |}).
Proof.
  intros Hoptions Hempty. eexists. split; [done|]. simpl.
  assert (1 ≤ js_or (Pinch.options_minInputs options) Pinch.DEFAULT_MIN_INPUTS)
    as Hmin.
  { destruct (Pinch.options_minInputs options) as [[| |]|]; simpl in *;
      unfold Pinch.DEFAULT_MIN_INPUTS; lia. }
  repeat split; [done| |].
  - intros n -> Hn. by destruct n.
  - rewrite move_unfold, Hempty. simpl.
    by replace (_ <? _) with true by (symmetry; apply Z.ltb_lt; lia).
Qed.
End PinchRuns.

(** ** Doubles: dividing a number by itself *)

Lemma div_eucl_shiftl (m : positive) :
  Z.div_eucl (Z.shiftl (Z.pos m) 53) (Z.pos m) = (2 ^ 53, 0).
Proof.
  rewrite Z.shiftl_mul_pow2 by lia.
  transitivity ((Z.pos m * 2 ^ 53) / Z.pos m, (Z.pos m * 2 ^ 53) mod Z.pos m).
  { unfold Z.div, Z.modulo. by destruct (Z.div_eucl _ _). }
  rewrite (Z.mul_comm (Z.pos m)), Z.div_mul, Z.mod_mul by lia. done.
Qed.

(** A finite double that is not a zero, divided by itself, is exactly 1. *)
Lemma div_self (d : float) (sign : bool) (m : positive) (e : Z) :
  Prim2SF d = S754_finite sign m e → (d / d)%float = 1%float.
Proof.
  intros Hd. apply Prim2SF_inj. rewrite div_spec, Hd.
  unfold SF64div, SFdiv, SFdiv_core_binary.
  rewrite !Z.sub_diag.
  change (Z.min (fexp prec emax 0) 0) with (-53).
  change (0 - -53) with 53.
  cbv iota zeta.
  change (IntDef.Z.div_eucl (IntDef.Z.shiftl (Z.pos m) 53) (Z.pos m))
    with (Z.div_eucl (Z.shiftl (Z.pos m) 53) (Z.pos m)).
  rewrite div_eucl_shiftl.
  assert (new_location (Z.pos m) 0 = loc_Exact) as ->.
  { unfold new_location. by destruct (IntDef.Z.even _). }
  destruct sign; by vm_compute.
Qed.

Lemma finite_nonzero_inv (d : float) :
  PrimFloat.is_finite d = true → PrimFloat.is_zero d = false →
  ∃ sign m e, Prim2SF d = S754_finite sign m e.
Proof.
  unfold PrimFloat.is_finite, PrimFloat.is_nan, PrimFloat.is_infinity,
    PrimFloat.is_zero.
  rewrite !FloatAxioms.eqb_spec, abs_spec.
  change (Prim2SF 0) with (S754_zero false).
  change (Prim2SF infinity) with (S754_infinity false).
  destruct (Prim2SF d) as [sign|sign| |sign m e]; eauto;
    try done; by destruct sign.
Qed.

(** X25.  No jump after a refresh: once [start], [end] or [cancel] has run
    on a state with at least [minInputs] contacts whose average distance
    is finite and not zero, a [move] on that same state emits a [change] of
    exactly 1, on doubles. *)
Theorem move_after_refresh_is_one (g : Pinch.Pinch float) (s : State float)
    (hook : Pinch.Hook float unit) :
  hook = Pinch.start ∨ hook = Pinch.end_ ∨ hook = Pinch.cancel →
  Pinch.minInputs g ≤ Z.of_nat (length (active s)) →
  PrimFloat.is_finite (Pinch.measured s) = true →
  PrimFloat.is_zero (Pinch.measured s) = false →
  (Pinch.move (hook {| Pinch.this := g; Pinch.state := s |}).2).1
  = Some {| Pinch.distance := Pinch.measured s;
            Pinch.midpoint := centroid s;
            Pinch.change := 1%float |}.
Proof.
  intros Hhook Henough Hfinite Hnonzero.
  assert (hook = Pinch.refresh) as -> by (by destruct Hhook as [->|[->| ->]]).
  rewrite refresh_unfold.
  replace (_ <=? _) with true by (symmetry; apply Z.leb_le; lia).
  cbn [snd]. rewrite move_unfold.
  cbn [Pinch.setPrevious Pinch.minInputs Pinch.previous].
  replace (_ <? _) with false by (symmetry; apply Z.ltb_ge; lia).
  cbn [fst].
  destruct (finite_nonzero_inv _ Hfinite Hnonzero) as (sign & m & e & Hd).
  do 2 f_equal. exact (div_self _ _ _ _ Hd).
Qed.

(** ** Instances of the properties above *)



Lemma removeById_unique_ids_witness :
  NoDup (binding_id <$>
           (Util.removeById binding_id
              [(1, "pan"); (2, "pinch"); (3, "rotate")] (2, "pinch")).2)
  ∧ (2 ∉ binding_id <$>
           (Util.removeById binding_id
              [(1, "pan"); (2, "pinch"); (3, "rotate")] (2, "pinch")).2).
Proof.
  apply (removeById_unique_ids binding_id
           [(1, "pan"); (2, "pinch"); (3, "rotate")] (2, "pinch")).
  eapply bool_decide_eq_true_1. reflexivity.
Defined.

Lemma safeRemoveById_guarded_witness :
  (Util.safeRemoveById binding_id
     [(1, "pan"); (2, "pinch"); (3, "rotate")] (2, "pinch") Binding).1
  = Normal true
  ∧ Util.safeRemoveById binding_id
      (Util.safeRemoveById binding_id
         [(1, "pan"); (2, "pinch"); (3, "rotate")] (2, "pinch") Binding).2
      (2, "pinch") Binding
    = (Normal false, [(1, "pan"); (3, "rotate")])
  ∧ Util.safeRemoveById binding_id
      [(1, "pan"); (1, "pinch")] (1, "pan") Stranger
    = (Throw "Invalid class Stranger received.", [(1, "pan"); (1, "pinch")]).
Proof.
  assert (NoDup (binding_id <$> [(1, "pan"); (2, "pinch"); (3, "rotate")]))
    as Hnodup by (eapply bool_decide_eq_true_1; reflexivity).
  destruct (safeRemoveById_guarded binding_id
              [(1, "pan"); (2, "pinch"); (3, "rotate")] (2, "pinch") Binding)
    as [_ Hinstance].
  destruct (Hinstance eq_refl Hnodup) as (Hfirst & _ & Hsecond).
  destruct (safeRemoveById_guarded binding_id
              [(1, "pan"); (1, "pinch")] (1, "pan") Stranger)
    as [Hthrows _].
  split; [exact Hfirst|]. split; [exact Hsecond|]. exact (Hthrows eq_refl).
Defined.

Lemma makeOwnPropertyImmutable_configurable_witness :
  ∃ obj',
    Util.makeOwnPropertyImmutable JSUndefined plainItem "id" = Normal obj'
    ∧ JSObject.getOwnPropertyDescriptor obj' "id"
      = Some (JSObject.Data (JSNumber 7) false true false)
    ∧ Util.toHaveImmutableProperty obj' "id" = true.
Proof.
  exact (makeOwnPropertyImmutable_configurable JSUndefined plainItem "id"
           (JSObject.Data (JSNumber 7) true true true) eq_refl eq_refl).
Defined.

Lemma defineOwnImmutableEnumerableProperty_defines_witness :
  Util.defineOwnImmutableEnumerableProperty JSUndefined unstamped "id" (JSNumber 7)
  = Normal stamped.
Proof.
  apply (defineOwnImmutableEnumerableProperty_defines JSUndefined unstamped "id").
  left. split; reflexivity.
Defined.

Lemma defineOwnImmutableEnumerableProperty_locks_witness :
  Util.toHaveImmutableProperty stamped "id" = true
  ∧ (∃ msg, Util.defineOwnImmutableEnumerableProperty JSUndefined stamped "id"
              (JSNumber 8) = Throw msg)
  ∧ Util.makeOwnPropertyImmutable JSUndefined stamped "id" = Normal stamped.
Proof.
  destruct (defineOwnImmutableEnumerableProperty_locks JSUndefined unstamped "id"
              (JSNumber 7) stamped eq_refl)
    as (Hmatcher & _ & Hother & Hnothing).
  split; [exact Hmatcher|]. split; [|exact Hnothing].
  apply Hother. discriminate.
Defined.

Lemma pan_first_event_witness :
  Interactor.pan (Interactor.constructor {[ "pan" := logCall ]})
    {| Interactor.pan_events :=
         [ {| Interactor.clientX := 10; Interactor.clientY := 20 |};
           {| Interactor.clientX := 30; Interactor.clientY := 40 |} ];
       Interactor.data :=
         [ {| Interactor.change := {| x := 1%float; y := 2%float |} |} ] |} []
  = Normal [[10%float; 20%float; 1%float; 2%float]].
Proof.
  apply (pan_first_event {[ "pan" := logCall ]} logCall). reflexivity.
Defined.





Lemma wheel_step_witness :
  ∃ step,
    Interactor.wheel (Interactor.constructor {[ "zoom" := logCall ]})
      {| Interactor.deltaY := 120; Interactor.ctrlKey := false;
         Interactor.defaultPrevented := false |} []
    = ({| Interactor.deltaY := 120; Interactor.ctrlKey := false;
          Interactor.defaultPrevented := true |}, Normal [[step]])
    ∧ step = (- 0x1.47ae147ae147bp-6)%float.
Proof.
  assert (({[ "zoom" := logCall ]} : gmap string (Interactor.Handler _)) !! "zoom"
          = Some logCall) as Hregistered by reflexivity.
  destruct (wheel_step {[ "zoom" := logCall ]} logCall
              {| Interactor.deltaY := 120; Interactor.ctrlKey := false;
                 Interactor.defaultPrevented := false |} [] Hregistered)
    as (step & Hwheel & Hdown & _).
  exists step. split; [exact Hwheel|]. apply Hdown. reflexivity.
Defined.

Lemma run_remembers_last_sufficient_witness :
  (Pinch.run (pinchAt 100%float) pinchRun).2 = pinchAt 150%float.
Proof.
  assert (Pinch.minInputs (pinchAt 100%float)
          ≤ Z.of_nat (length (active (onAxis (-100) 200)))) as Henough
    by (simpl; lia).
  assert (Forall (λ e : Phase * State float,
                    Z.of_nat (length (active e.2))
                    < Pinch.minInputs (pinchAt 100%float))
            [(PhaseEnd, oneContact 5)]) as Hafter
    by (repeat constructor; simpl; lia).
  pose proof (run_remembers_last_sufficient (pinchAt 100%float) pinchRun
                [(PhaseMove, onAxis (-100) 100)] PhaseMove (onAxis (-100) 200)
                [(PhaseEnd, oneContact 5)] eq_refl Henough Hafter) as Hrun.
  exact (f_equal snd Hrun).
Defined.

Lemma constructed_needs_contacts_witness :
  ∃ g,
    Pinch.constructor (num := float) {| Pinch.options_minInputs := Some 3 |}
    = Normal g
    ∧ Pinch.minInputs g = 3
    ∧ Pinch.move {| Pinch.this := g; Pinch.state := stateOf [] |}
      = (None, {| Pinch.this := g; Pinch.state := stateOf [] |}).
Proof.
  assert (0 ≤ 3) as Hthree by lia.
  destruct (constructed_needs_contacts (num := float)
              {| Pinch.options_minInputs := Some 3 |} (stateOf []) Hthree eq_refl)
    as (g & Hg & _ & Hkept & Hmove).
  exists g. split; [exact Hg|]. split; [|exact Hmove].
  apply Hkept; [reflexivity|lia].
Defined.

Lemma move_after_refresh_is_one_witness :
  (Pinch.move
     (Pinch.start {| Pinch.this := pinchAt 100%float;
                     Pinch.state := onAxis (-100) 200 |}).2).1
  = Some {| Pinch.distance := 150%float;
            Pinch.midpoint := {| x := 50%float; y := 0%float |};
            Pinch.change := 1%float |}.
Proof.
  assert (Pinch.minInputs (pinchAt 100%float)
          ≤ Z.of_nat (length (active (onAxis (-100) 200)))) as Henough
    by (simpl; lia).
  exact (move_after_refresh_is_one (pinchAt 100%float) (onAxis (-100) 200)
           Pinch.start (or_introl eq_refl) Henough eq_refl eq_refl).
Defined.
